(** * Database lifecycle scripts of the task-management backend

  A shallow embedding of the four command-style scripts of the backend

  - [backend/scripts/create-database.ts]
  - [backend/scripts/drop-database.ts]
  - [backend/scripts/migrate.ts]
  - the seed script (the TypeScript text stored behind the second
    migration file, [backend/migrations/002.do.tasks.sql], lines 28-114)

  Every script is a straight-line [async] function: each statement is
  awaited before the next one starts, so a script is modelled as a
  function from the state of the process to an outcome (returned or
  thrown) and the next state.  The state holds [process.env], the trace
  of everything the script did to the outside (client calls, console
  output, hashing) and the state of the collaborators the repository
  does not contain: the PostgreSQL client and server, the file system,
  the password manager and Postgrator. *)

From Stdlib Require Import ZArith NArith Strings.String Strings.Ascii List Bool Lia.
From Stdlib Require Import Floats.SpecFloat.
From stdpp Require Import base option list gmap strings.

Local Open Scope string_scope.
Local Open Scope Z_scope.

(** ** JavaScript numbers and [Number(...)]

  A JavaScript Number is an IEEE 754 binary64 value: [spec_float] with
  53 bits of precision and exponent bound 1024.  [Number(s)] on a string
  is ECMAScript's StringToNumber: white space and line terminators are
  trimmed on both sides, the empty string is [+0], the rest must be a
  StrNumericLiteral (a signed decimal literal, [Infinity], or an unsigned
  [0x], [0o] or [0b] literal), anything else is [NaN].  The mathematical
  value of the literal is rounded to the nearest double, ties to even
  (what V8 does).  Strings are UTF-8 byte sequences. *)
Module Js.

Definition prec : Z := 53.
Definition emax : Z := 1024.

Definition num_of_Z (z : Z) : spec_float := binary_normalize prec emax z 0 false.

(** The number literal [1]. *)
Definition one : spec_float := num_of_Z 1.

(** [a === b] and [a !== b] on two Numbers: IEEE equality, so [NaN] is
    different from everything and the two zeros are equal. *)
Definition strict_eq (a b : spec_float) : bool := SFeqb a b.
Definition strict_neq (a b : spec_float) : bool := negb (strict_eq a b).

Definition bytes_of (s : string) : list N :=
  map N_of_ascii (list_ascii_of_string s).

(** StrWhiteSpaceChar: WhiteSpace (TAB, VT, FF, ZWNBSP and the space
    separators) and LineTerminator (LF, CR, LS, PS), in UTF-8. *)
Definition str_white_space : list (list N) :=
  [ [9%N]; [10%N]; [11%N]; [12%N]; [13%N]; [32%N];
    [194; 160]%N;
    [225; 154; 128]%N;
    [226; 128; 128]%N; [226; 128; 129]%N; [226; 128; 130]%N;
    [226; 128; 131]%N; [226; 128; 132]%N; [226; 128; 133]%N;
    [226; 128; 134]%N; [226; 128; 135]%N; [226; 128; 136]%N;
    [226; 128; 137]%N; [226; 128; 138]%N;
    [226; 128; 168]%N; [226; 128; 169]%N;
    [226; 128; 175]%N;
    [226; 129; 159]%N;
    [227; 128; 128]%N;
    [239; 187; 191]%N ].

Fixpoint strip_prefix (p s : list N) : option (list N) :=
  match p, s with
  | [], _ => Some s
  | a :: p', b :: s' => if N.eqb a b then strip_prefix p' s' else None
  | _ :: _, [] => None
  end.

Fixpoint strip_any (ps : list (list N)) (s : list N) : option (list N) :=
  match ps with
  | [] => None
  | p :: ps' =>
      match strip_prefix p s with
      | Some s' => Some s'
      | None => strip_any ps' s
      end
  end.

Fixpoint trim_start_with (fuel : nat) (ps : list (list N)) (s : list N) : list N :=
  match fuel with
  | O => s
  | S fuel' =>
      match strip_any ps s with
      | Some s' => trim_start_with fuel' ps s'
      | None => s
      end
  end.

Definition trim (s : list N) : list N :=
  let s1 := trim_start_with (length s) str_white_space s in
  rev (trim_start_with (length s1) (map (@rev N) str_white_space) (rev s1)).

Definition digit_value (radix b : N) : option N :=
  let v :=
    if (48 <=? b)%N && (b <=? 57)%N then Some (b - 48)%N
    else if (97 <=? b)%N && (b <=? 102)%N then Some (b - 87)%N
    else if (65 <=? b)%N && (b <=? 70)%N then Some (b - 55)%N
    else None in
  match v with
  | Some d => if (d <? radix)%N then Some d else None
  | None => None
  end.

(** Reads the longest run of digits of the radix: the value accumulated
    on [acc], the number of digits read, and the rest. *)
Fixpoint digits (radix : N) (s : list N) (acc : N) (n : nat) : N * nat * list N :=
  match s with
  | b :: s' =>
      match digit_value radix b with
      | Some d => digits radix s' (radix * acc + d)%N (S n)
      | None => (acc, n, s)
      end
  | [] => (acc, n, s)
  end.

(** The Number for [(-1)^neg * m * 10^e]. *)
Definition round_decimal (neg : bool) (m : N) (e : Z) : spec_float :=
  match m with
  | N0 => S754_zero neg
  | Npos p =>
      if 0 <=? e
      then binary_round prec emax neg (p * Z.to_pos (10 ^ e))%positive 0
      else SFdiv prec emax (S754_finite neg p 0)
                           (S754_finite false (Z.to_pos (10 ^ (- e))) 0)
  end.

(** ExponentPart_opt followed by the end of the string: the exponent. *)
Definition exponent_part (s : list N) : option Z :=
  match s with
  | [] => Some 0
  | c :: s1 =>
      if N.eqb c 101 || N.eqb c 69 then
        let '(neg, s2) :=
          match s1 with
          | 43%N :: s2 => (false, s2)
          | 45%N :: s2 => (true, s2)
          | _ => (false, s1)
          end in
        match digits 10 s2 0 0 with
        | (_, O, _) => None
        | (x, S _, []) => Some (if neg then - Z.of_N x else Z.of_N x)
        | (_, S _, _ :: _) => None
        end
      else None
  end.

(** StrUnsignedDecimalLiteral other than [Infinity]. *)
Definition unsigned_decimal (neg : bool) (s : list N) : spec_float :=
  let '(i, ni, r1) := digits 10 s 0 0 in
  let '(m, nf, r2) :=
    match r1 with
    | 46%N :: r1' => digits 10 r1' i 0
    | _ => (i, O, r1)
    end in
  match (ni + nf)%nat with
  | O => S754_nan
  | S _ =>
      match exponent_part r2 with
      | Some x => round_decimal neg m (x - Z.of_nat nf)
      | None => S754_nan
      end
  end.

Definition infinity_text : list N := [73; 110; 102; 105; 110; 105; 116; 121]%N.

Definition str_decimal (neg : bool) (s : list N) : spec_float :=
  if decide (s = infinity_text) then S754_infinity neg
  else unsigned_decimal neg s.

Definition non_decimal (radix : N) (s : list N) : spec_float :=
  match digits radix s 0 0 with
  | (_, O, _) => S754_nan
  | (v, S _, []) => round_decimal false v 0
  | (_, S _, _ :: _) => S754_nan
  end.

Definition string_to_number (s : string) : spec_float :=
  match trim (bytes_of s) with
  | [] => S754_zero false
  | 43%N :: t => str_decimal false t
  | 45%N :: t => str_decimal true t
  | 48%N :: c :: t =>
      if N.eqb c 120 || N.eqb c 88 then non_decimal 16 t
      else if N.eqb c 111 || N.eqb c 79 then non_decimal 8 t
      else if N.eqb c 98 || N.eqb c 66 then non_decimal 2 t
      else str_decimal false (48%N :: c :: t)
  | t => str_decimal false t
  end.

(** [Number(v)] where [v] is a string or [undefined] ([None]), the two
    things a lookup in [process.env] gives. *)
Definition Number (v : option string) : spec_float :=
  match v with
  | None => S754_nan
  | Some s => string_to_number s
  end.

(** A template literal's rendering of a string or [undefined]. *)
Definition template (v : option string) : string :=
  match v with
  | None => "undefined"
  | Some s => s
  end.

End Js.

(** ** Values, errors and outcomes *)

(** The double quote character, for the SQL texts that quote identifiers. *)
Definition dq : string := String (ascii_of_nat 34) EmptyString.

(** What a row cell, a statement parameter or an untyped ([any]) variable
    of the scripts can hold.  Identifiers handed out by the store are
    integers. *)
Inductive Value :=
  | VUndefined
  | VNull
  | VNumber (z : Z)
  | VString (s : string).

#[global] Instance Value_eq_dec : EqDecision Value.
Proof. solve_decision. Defined.

(** How a template literal renders a value. *)
Definition to_text (v : Value) : string :=
  match v with
  | VUndefined => "undefined"
  | VNull => "null"
  | VNumber z => pretty.pretty z
  | VString s => s
  end.

(** A thrown value: an [Error] object, with the [code] property that the
    PostgreSQL client sets on the errors of the server (SQLSTATE). *)
Record JsError := mkError {
  err_name : string;
  err_message : string;
  err_code : option string
}.

#[global] Instance JsError_eq_dec : EqDecision JsError.
Proof. solve_decision. Defined.

Definition Error (msg : string) : JsError := mkError "Error" msg None.
Definition TypeError (msg : string) : JsError := mkError "TypeError" msg None.

Inductive Outcome (A : Type) :=
  | Returned (a : A)
  | Thrown (e : JsError).
Arguments Returned {A} a.
Arguments Thrown {A} e.

Definition is_thrown {A} (o : Outcome A) : bool :=
  match o with Returned _ => false | Thrown _ => true end.

(** A result row is an object: its properties, keyed by column name. *)
Abbreviation Row := (list (string * Value)%type).

(** [row.column]: [undefined] when the property is missing. *)
Fixpoint prop (row : Row) (column : string) : Value :=
  match row with
  | [] => VUndefined
  | (name, v) :: row' => if decide (name = column) then v else prop row' column
  end.

Record QueryResult := mkResult {
  rows : list Row;
  fields : list string
}.

(** The options object passed to [new Client(...)]. *)
Record ClientConfig := mkConfig {
  host : option string;
  port : spec_float;
  database : option string;
  user : option string;
  password : option string
}.

(** A migration file as the runner sees it: the version its name starts
    with and its SQL text. *)
Record Migration := mkMigration {
  version : N;
  body : string
}.

(** ** The trace of a run *)
Inductive Event :=
  | Connect (cfg : ClientConfig)
  | Query (sql : string)
  | Execute (sql : string) (params : list Value)
  | ClientEnd
  | ExistsSync (path : string)
  | ScryptHash (plain : string)
  | LedgerRead (table : string)
  | LedgerRecord (table : string) (v : N)
  | ConsoleLog (msg : string)
  | ConsoleError (label : option string) (e : JsError).

(** The events that go through the database connection. *)
Definition on_connection (e : Event) : bool :=
  match e with
  | Connect _ | Query _ | Execute _ _ | ClientEnd
  | LedgerRead _ | LedgerRecord _ _ => true
  | _ => false
  end.

(** The events that send a statement to the store. *)
Definition is_statement (e : Event) : bool :=
  match e with
  | Query _ | Execute _ _ | LedgerRead _ | LedgerRecord _ _ => true
  | _ => false
  end.

Definition is_execute (e : Event) : bool :=
  match e with Execute _ _ => true | _ => false end.

Definition is_connect (e : Event) : bool :=
  match e with Connect _ => true | _ => false end.

(** ** The collaborators

    What the scripts import and the repository does not contain, as an
    interface over the state [W] of the outside world.  Every call may
    change that state and may throw.

    - [pg_connect], [pg_query], [pg_end]: [connect], [query] and [end] of
      the client;
    - [pg_execute]: the [connection.execute(sql, params)] call of the seed
      script, whose awaited value the script destructures as an array of
      results (the client of [pg] has no such method: on it the call
      throws, see [Sim.execute]);
    - [scrypt]: [scryptHash] of the password manager (salted, so it may
      answer differently each time);
    - [exists_sync], [path_join]: [fs.existsSync] and [path.join];
    - [migration_files], [ledger_read], [ledger_record]: what Postgrator
      needs from the file system and from its schema-version table. *)
Class Collaborators (W : Type) := {
  pg_connect : ClientConfig -> W -> Outcome unit * W;
  pg_query : string -> W -> Outcome QueryResult * W;
  pg_execute : string -> list Value -> W -> Outcome (list QueryResult) * W;
  pg_end : W -> Outcome unit * W;
  scrypt : string -> W -> Outcome string * W;
  exists_sync : string -> W -> bool;
  path_join : string -> string -> string;
  migration_files : string -> W -> list Migration;
  ledger_read : string -> W -> Outcome N * W;
  ledger_record : string -> N -> W -> Outcome unit * W
}.

(** ** The state of the process and the script monad *)
Record Proc (W : Type) := mkProc {
  env : gmap string string;
  dirname : string;
  trace : list Event;
  world : W
}.
Arguments mkProc {W} env dirname trace world.
Arguments env {W} p.
Arguments dirname {W} p.
Arguments trace {W} p.
Arguments world {W} p.

Definition Script (W A : Type) : Type := Proc W -> Outcome A * Proc W.

#[global] Instance script_ret {W} : MRet (Script W) :=
  fun A a p => (Returned a, p).

#[global] Instance script_bind {W} : MBind (Script W) :=
  fun A B k m p =>
    match m p with
    | (Returned a, p') => k a p'
    | (Thrown e, p') => (Thrown e, p')
    end.

Section Scripts.
Context {W : Type} `{Collaborators W}.

(** [throw e] *)
Definition throw {A} (e : JsError) : Script W A := fun p => (Thrown e, p).

(** [try { body } catch (error) { handler }] *)
Definition try_catch {A} (body : Script W A) (handler : JsError -> Script W A)
  : Script W A :=
  fun p =>
    match body p with
    | (Returned a, p') => (Returned a, p')
    | (Thrown e, p') => handler e p'
    end.

(** [try { body } finally { fin }]: [fin] runs on both exits of [body];
    when [fin] throws, that is the outcome. *)
Definition try_finally {A} (body : Script W A) (fin : Script W unit)
  : Script W A :=
  fun p =>
    let '(r, p') := body p in
    match fin p' with
    | (Returned _, p'') => (r, p'')
    | (Thrown e, p'') => (Thrown e, p'')
    end.

(** Appends an event to the trace. *)
Definition emit (e : Event) : Script W unit :=
  fun p => (Returned tt, mkProc (env p) (dirname p) (trace p ++ [e]) (world p)).

(** An awaited call of a collaborator: its outcome, and the world after it. *)
Definition call {A} (f : W -> Outcome A * W) : Script W A :=
  fun p =>
    let '(r, w) := f (world p) in
    (r, mkProc (env p) (dirname p) (trace p) w).

(** Reads the state of the process. *)
Definition peek {A} (f : Proc W -> A) : Script W A :=
  fun p => (Returned (f p), p).

(** [process.env.NAME] *)
Definition getenv (name : string) : Script W (option string) :=
  peek (fun p => env p !! name).

(** [console.log(msg)] and [console.error(label, e)] or [console.error(e)]. *)
Definition console_log (msg : string) : Script W unit := emit (ConsoleLog msg).
Definition console_error (label : option string) (e : JsError) : Script W unit :=
  emit (ConsoleError label e).

(** The calls on the connection and on the other collaborators; each is
    recorded in the trace before it is made. *)
Definition connect (cfg : ClientConfig) : Script W unit :=
  emit (Connect cfg);; call (pg_connect cfg).
Definition query (sql : string) : Script W QueryResult :=
  emit (Query sql);; call (pg_query sql).
Definition execute (sql : string) (params : list Value) : Script W (list QueryResult) :=
  emit (Execute sql params);; call (pg_execute sql params).
Definition client_end : Script W unit :=
  emit ClientEnd;; call pg_end.
Definition scryptHash (plain : string) : Script W string :=
  emit (ScryptHash plain);; call (scrypt plain).
Definition existsSync (path : string) : Script W bool :=
  emit (ExistsSync path);; peek (fun p => exists_sync path (world p)).

(** [new Client({ host, port, database, user, password })], every field
    read from [process.env]; [drop-database.ts] passes no [database]. *)
Definition client_config (e : gmap string string) (with_database : bool)
  : ClientConfig :=
  mkConfig (e !! "POSTGRES_HOST")
           (Js.Number (e !! "POSTGRES_PORT"))
           (if with_database then e !! "POSTGRES_DATABASE" else None)
           (e !! "POSTGRES_USER")
           (e !! "POSTGRES_PASSWORD").

Definition new_client (with_database : bool) : Script W ClientConfig :=
  peek (fun p => client_config (env p) with_database).

(** *** create-database.ts *)

Definition createDB : Script W unit :=
  try_catch
    (db ← getenv "POSTGRES_DATABASE";
     query ("CREATE DATABASE " +:+ dq +:+ Js.template db +:+ dq);;
     console_log ("Database " +:+ Js.template db +:+ " created successfully."))
    (fun error =>
       if decide (err_code error = Some "42P04") then
         db ← getenv "POSTGRES_DATABASE";
         console_log ("Database " +:+ Js.template db +:+ " already exists.")
       else throw error).

Definition createDatabase : Script W unit :=
  connection ← new_client true;
  connect connection;;
  try_finally
    (try_catch
       (createDB;;
        db ← getenv "POSTGRES_DATABASE";
        console_log ("Database " +:+ Js.template db +:+ " has been created successfully."))
       (fun error => console_error (Some "Error creating database:") error))
    client_end.

Definition create_database_ts : Script W unit :=
  flag ← getenv "CAN_CREATE_DATABASE";
  if Js.strict_neq (Js.Number flag) Js.one then
    throw (Error "You can't create the database. Set `CAN_CREATE_DATABASE=1` environment variable to allow this operation.")
  else createDatabase.

(** *** drop-database.ts *)

Definition dropDB : Script W unit :=
  try_catch
    (db ← getenv "POSTGRES_DATABASE";
     query ("DROP DATABASE " +:+ dq +:+ Js.template db +:+ dq);;
     console_log ("Database " +:+ Js.template db +:+ " dropped."))
    (fun error =>
       if decide (err_code error = Some "3D000") then
         db ← getenv "POSTGRES_DATABASE";
         console_log ("Database " +:+ Js.template db +:+ " does not exist.")
       else throw error).

Definition dropDatabase : Script W unit :=
  connection ← new_client false;
  connect connection;;
  try_finally
    (try_catch
       (dropDB;;
        db ← getenv "POSTGRES_DATABASE";
        console_log ("Database " +:+ Js.template db +:+ " has been dropped successfully."))
       (fun error => console_error (Some "Error dropping database:") error))
    client_end.

Definition drop_database_ts : Script W unit :=
  flag ← getenv "CAN_DROP_DATABASE";
  if Js.strict_neq (Js.Number flag) Js.one then
    throw (Error "You can't drop the database. Set `CAN_DROP_DATABASE=1` environment variable to allow this operation.")
  else dropDatabase.

(** *** The seed script *)

Definition select_tables_sql : string := "
    SELECT table_name 
    FROM information_schema.tables 
    WHERE table_schema = 'public' 
    AND table_type = 'BASE TABLE'
  ".

Definition insert_user_sql : string := "
      INSERT INTO users (username, email, password)
      VALUES (?, ?, ?)
    ".

Definition insert_role_sql : string := "
      INSERT INTO roles (name)
      VALUES (?)
    ".

Definition insert_user_role_sql : string := "
        INSERT INTO user_roles (user_id, role_id)
        VALUES (?, ?)
      ".

(** [for (const x of xs) { await body(x) }] *)
Fixpoint for_of {A} (xs : list A) (body : A -> Script W unit) : Script W unit :=
  match xs with
  | [] => mret tt
  | x :: xs' => body x;; for_of xs' body
  end.

Definition truncate_sql (tableName : Value) : string :=
  "TRUNCATE TABLE " +:+ dq +:+ to_text tableName +:+ dq +:+ " RESTART IDENTITY CASCADE".

Definition truncateTables : Script W unit :=
  result ← query select_tables_sql;
  let tables := rows result in
  if decide (0 < length tables)%nat then
    let tableNames := (fun row => prop row "table_name") <$> tables in
    let truncateQueries := String.concat "; " (truncate_sql <$> tableNames) in
    query truncateQueries;;
    console_log "All tables have been truncated successfully."
  else mret tt.

Record SeedUser := mkUser {
  username : string;
  email : string
}.

Definition users : list SeedUser :=
  [ mkUser "basic" "basic@example.com";
    mkUser "moderator" "moderator@example.com";
    mkUser "admin" "admin@example.com" ].

(** [(result as any).rows[0].id] on the first element of the awaited
    array: reading a property of [undefined] throws a [TypeError]. *)
Definition first_row_id (awaited : list QueryResult) : Script W Value :=
  match awaited !! 0%nat with
  | None => throw (TypeError "Cannot read properties of undefined (reading 'rows')")
  | Some result =>
      match rows result !! 0%nat with
      | None => throw (TypeError "Cannot read properties of undefined (reading 'id')")
      | Some row => mret (prop row "id")
      end
  end.

(** The body of [for (const user of users)], on the users that are left;
    [rolesAccumulator] is the array the loop pushes to. *)
Fixpoint seed_each (hash : string) (rolesAccumulator : list Value)
    (rest : list SeedUser) : Script W unit :=
  match rest with
  | [] => mret tt
  | user :: rest' =>
      userResult ← execute insert_user_sql
                     [VString (username user); VString (email user); VString hash];
      userId ← first_row_id userResult;
      roleResult ← execute insert_role_sql [VString (username user)];
      newRoleId ← first_row_id roleResult;
      let rolesAccumulator := (rolesAccumulator ++ [newRoleId])%list in
      for_of rolesAccumulator
        (fun roleId => execute insert_user_role_sql [userId; roleId];; mret tt);;
      seed_each hash rolesAccumulator rest'
  end.

(** [seedUsers] over a roster; the script's roster is [users]. *)
Definition seedUsers_of (roster : list SeedUser) : Script W unit :=
  hash ← scryptHash "Password123$";
  seed_each hash [] roster;;
  console_log "Users have been seeded successfully.".

Definition seedUsers : Script W unit := seedUsers_of users.

Definition seed : Script W unit :=
  connection ← new_client true;
  connect connection;;
  try_finally
    (try_catch
       (truncateTables;; seedUsers)
       (fun error => console_error (Some "Error seeding database:") error))
    client_end.

Definition seed_ts : Script W unit :=
  flag ← getenv "CAN_SEED_DATABASE";
  if Js.strict_neq (Js.Number flag) Js.one then
    throw (Error "You can't seed the database. Set `CAN_SEED_DATABASE=1` environment variable to allow this operation.")
  else seed.

(** *** migrate.ts *)

Fixpoint insert_by_version (m : Migration) (sorted : list Migration) : list Migration :=
  match sorted with
  | [] => [m]
  | m' :: rest =>
      if (version m <=? version m')%N then m :: sorted
      else m' :: insert_by_version m rest
  end.

Definition sort_by_version (files : list Migration) : list Migration :=
  foldr insert_by_version [] files.

(** The migrations that are still to apply when the ledger stands at
    [current], in the order they are applied. *)
Definition pending (current : N) (files : list Migration) : list Migration :=
  filter (fun m => (current < version m)%N) (sort_by_version files).

(** Modelled from the spec: [migrate()] of Postgrator, the third-party
    migration runner that [migrate.ts] constructs and calls; its code is
    not in the repository.  It enumerates the migration files matching
    the pattern, reads (or initialises) the schema-version ledger, and
    for each migration with a version greater than the current one, in
    version order, executes its SQL body through [execQuery] as one
    statement and then records its version; an error aborts the run and
    leaves the ledger at the last version recorded. *)
Definition postgrator_migrate (migrationPattern schemaTable : string)
    (execQuery : string -> Script W QueryResult) : Script W unit :=
  files ← peek (fun p => migration_files migrationPattern (world p));
  emit (LedgerRead schemaTable);;
  current ← call (ledger_read schemaTable);
  for_of (pending current files)
    (fun m =>
       execQuery (body m);;
       emit (LedgerRecord schemaTable (version m));;
       call (ledger_record schemaTable (version m))).

Definition doMigration : Script W unit :=
  connection ← new_client true;
  connect connection;;
  try_finally
    (try_catch
       (here ← peek dirname;
        let migrationDir := path_join here "../migrations" in
        present ← existsSync migrationDir;
        (if negb present then
           throw (Error ("Migration directory " +:+ dq +:+ migrationDir +:+ dq
                         +:+ " does not exist. Skipping migrations."))
         else mret tt);;
        postgrator_migrate (path_join migrationDir "*") "schemaversion"
          (fun query_text =>
             result ← query query_text;
             mret (mkResult (rows result) (fields result)));;
        console_log "Migration completed!")
       (fun err => console_error None err))
    (try_catch client_end (fun err => console_error None err)).

Definition migrate_ts : Script W unit := doMigration.

End Scripts.

(** ** A simulated store

  For the claims that speak of what is in the store after a run (which
  database exists, which rows, which ledger version), a small executable
  PostgreSQL and [pg] client stand in for the real ones: the catalogue of
  databases, the session the client has open, the base tables of the
  public schema with their identity sequences, and the statements of the
  scripts interpreted on them.

  - [connect] opens a session on the database of the configuration, or,
    when the configuration names none, on the database [pg] falls back
    to ([PGDATABASE], then the name of the user); the server refuses it
    when that database does not exist (SQLSTATE 3D000).
  - [CREATE DATABASE] and [DROP DATABASE] check the privilege and the
    catalogue; the database of the open session cannot be dropped
    (55006).
  - The statement that enumerates the base tables is recognised by its
    words, written here apart from the scripts; it answers with every
    base table of the schema, the schema-version table of Postgrator
    among them once Postgrator has created it.
  - [TRUNCATE] empties the tables it names and restarts their sequences;
    the cascade to tables it does not name is left out, the seed script
    names every table.
  - The client is [pg]'s [Client]: it has no [execute] method, so the
    call [connection.execute(...)] throws a [TypeError] and nothing
    reaches the server.
  - Any other statement is recorded as applied, unless the server
    rejects it.

  What the server decides by itself is a field of its state: whom it
  lets in, whether the role may create databases, which other statements
  it rejects, how the password manager derives a hash from a salt. *)
Module Sim.

(** A base table: the next value of its identity sequence and its rows,
    oldest first. *)
Record Table := mkTable {
  next_id : Z;
  table_rows : list Row
}.

(** The outside world of the scripts: the server ([authenticates] to
    [rejects]), what [pg] reads from its own environment ([pg_user]:
    [PGUSER] or else the account of the process; [pg_database]:
    [PGDATABASE]), the password manager ([kdf], [salt]) and the file
    system ([directories], [files]: the migration files matching a
    pattern). *)
Record State := mkState {
  authenticates : ClientConfig -> bool;
  pg_user : string;
  pg_database : option string;
  createdb : bool;
  catalog : list string;
  session : option string;
  tables : list (string * Table);
  applied : list string;
  rejects : string -> option string;
  kdf : N -> string -> string;
  salt : N;
  directories : list string;
  files : string -> list Migration
}.

(** The state with one field replaced. *)
Definition with_authenticates (a : ClientConfig -> bool) (s : State) : State :=
  mkState a (pg_user s) (pg_database s) (createdb s) (catalog s) (session s)
          (tables s) (applied s) (rejects s) (kdf s) (salt s) (directories s) (files s).
Definition with_createdb (b : bool) (s : State) : State :=
  mkState (authenticates s) (pg_user s) (pg_database s) b (catalog s) (session s)
          (tables s) (applied s) (rejects s) (kdf s) (salt s) (directories s) (files s).
Definition with_catalog (c : list string) (s : State) : State :=
  mkState (authenticates s) (pg_user s) (pg_database s) (createdb s) c (session s)
          (tables s) (applied s) (rejects s) (kdf s) (salt s) (directories s) (files s).
Definition with_session (d : option string) (s : State) : State :=
  mkState (authenticates s) (pg_user s) (pg_database s) (createdb s) (catalog s) d
          (tables s) (applied s) (rejects s) (kdf s) (salt s) (directories s) (files s).
Definition with_tables (t : list (string * Table)) (s : State) : State :=
  mkState (authenticates s) (pg_user s) (pg_database s) (createdb s) (catalog s) (session s)
          t (applied s) (rejects s) (kdf s) (salt s) (directories s) (files s).
Definition with_applied (a : list string) (s : State) : State :=
  mkState (authenticates s) (pg_user s) (pg_database s) (createdb s) (catalog s) (session s)
          (tables s) a (rejects s) (kdf s) (salt s) (directories s) (files s).
Definition with_rejects (r : string -> option string) (s : State) : State :=
  mkState (authenticates s) (pg_user s) (pg_database s) (createdb s) (catalog s) (session s)
          (tables s) (applied s) r (kdf s) (salt s) (directories s) (files s).
Definition with_salt (n : N) (s : State) : State :=
  mkState (authenticates s) (pg_user s) (pg_database s) (createdb s) (catalog s) (session s)
          (tables s) (applied s) (rejects s) (kdf s) n (directories s) (files s).
Definition with_directories (d : list string) (s : State) : State :=
  mkState (authenticates s) (pg_user s) (pg_database s) (createdb s) (catalog s) (session s)
          (tables s) (applied s) (rejects s) (kdf s) (salt s) d (files s).

(** An error of the server, with its SQLSTATE. *)
Definition db_error (code msg : string) : JsError := mkError "error" msg (Some code).

(** The server's error for a database that is not in the catalogue. *)
Definition no_database (name : string) : JsError :=
  db_error "3D000" ("database " +:+ dq +:+ name +:+ dq +:+ " does not exist").

(** *** Opening and closing the session *)

(** [config[key] || ...] in [pg]: a missing or empty setting falls
    through to the next source. *)
Definition given (v : option string) : option string :=
  match v with
  | Some EmptyString => None
  | _ => v
  end.

(** The database a client of that configuration connects to: the one of
    the configuration, else [PGDATABASE], else the name of the user. *)
Definition session_database (cfg : ClientConfig) (s : State) : string :=
  match given (database cfg) with
  | Some d => d
  | None =>
      match given (pg_database s) with
      | Some d => d
      | None =>
          match given (user cfg) with
          | Some u => u
          | None => pg_user s
          end
      end
  end.

(** The server lets the client in and the database it asks for exists. *)
Definition accepts (s : State) (cfg : ClientConfig) : bool :=
  authenticates s cfg && bool_decide (session_database cfg s ∈ catalog s).

Definition connect (cfg : ClientConfig) (s : State) : Outcome unit * State :=
  if negb (authenticates s cfg) then
    (Thrown (mkError "Error" "connection refused" (Some "ECONNREFUSED")), s)
  else if bool_decide (session_database cfg s ∈ catalog s) then
    (Returned tt, with_session (Some (session_database cfg s)) s)
  else (Thrown (no_database (session_database cfg s)), s).

Definition close (s : State) : Outcome unit * State :=
  (Returned tt, with_session None s).

(** *** Reading the statements *)

(** What follows the prefix [pre] in [s]. *)
Fixpoint strip (pre s : string) : option string :=
  match pre with
  | EmptyString => Some s
  | String a pre' =>
      match s with
      | String b s' => if Ascii.eqb a b then strip pre' s' else None
      | EmptyString => None
      end
  end.

(** The text up to the closing double quote, and what follows it. *)
Fixpoint read_ident (s : string) : option (string * string) :=
  match s with
  | EmptyString => None
  | String c s' =>
      if Ascii.eqb c (ascii_of_nat 34) then Some (EmptyString, s')
      else match read_ident s' with
           | Some (i, r) => Some (String c i, r)
           | None => None
           end
  end.

(** [KEYWORDS "name"] and nothing else. *)
Definition quoted_after (keywords s : string) : option (option string) :=
  match strip keywords s with
  | None => None
  | Some rest =>
      match strip dq rest with
      | Some rest' =>
          match read_ident rest' with
          | Some (name, EmptyString) => Some (Some name)
          | _ => Some None
          end
      | None => Some None
      end
  end.

Fixpoint read_truncates (fuel : nat) (s : string) : option (list string) :=
  match fuel with
  | O => None
  | S fuel' =>
      match strip ("TRUNCATE TABLE " +:+ dq) s with
      | None => None
      | Some s1 =>
          match read_ident s1 with
          | None => None
          | Some (name, s2) =>
              match strip " RESTART IDENTITY CASCADE" s2 with
              | None => None
              | Some EmptyString => Some [name]
              | Some s3 =>
                  match strip "; " s3 with
                  | None => None
                  | Some s4 =>
                      match read_truncates fuel' s4 with
                      | Some names => Some (name :: names)
                      | None => None
                      end
                  end
              end
          end
      end
  end.

(** The words of the query for the base tables of the public schema,
    however they are laid out. *)
Definition base_tables_words : list string :=
  [ "SELECT"; "table_name"; "FROM"; "information_schema.tables";
    "WHERE"; "table_schema"; "="; "'public'";
    "AND"; "table_type"; "="; "'BASE"; "TABLE'" ].

Inductive Statement :=
| SelectBaseTables
| CreateDatabase (name : string)
| DropDatabase (name : string)
| Truncate (names : list string)
| Malformed
| Other.

Definition read_statement (sql : string) : Statement :=
  match quoted_after "CREATE DATABASE " sql with
  | Some (Some name) => CreateDatabase name
  | Some None => Malformed
  | None =>
  match quoted_after "DROP DATABASE " sql with
  | Some (Some name) => DropDatabase name
  | Some None => Malformed
  | None =>
  match strip "TRUNCATE TABLE " sql with
  | Some _ =>
      match read_truncates (String.length sql) sql with
      | Some names => Truncate names
      | None => Malformed
      end
  | None =>
      if decide (String.words sql = base_tables_words) then SelectBaseTables
      else Other
  end end end.

(** *** Running them *)

Definition has_table (name : string) (s : State) : bool :=
  bool_decide (name ∈ (fst <$> tables s)).

Definition truncate_named (names : list string) (t : list (string * Table))
  : list (string * Table) :=
  (fun '(n, tb) => if bool_decide (n ∈ names) then (n, mkTable 1 []) else (n, tb)) <$> t.

Definition query (sql : string) (s : State) : Outcome QueryResult * State :=
  match read_statement sql with
  | SelectBaseTables =>
      (Returned (mkResult (map (fun t => [("table_name", VString t.1)]) (tables s))
                          ["table_name"]), s)
  | CreateDatabase name =>
      if negb (createdb s) then
        (Thrown (db_error "42501" "permission denied to create database"), s)
      else if bool_decide (name ∈ catalog s) then
        (Thrown (db_error "42P04" "database already exists"), s)
      else (Returned (mkResult [] []), with_catalog (catalog s ++ [name]) s)
  | DropDatabase name =>
      if bool_decide (name ∈ catalog s) then
        if negb (createdb s) then
          (Thrown (db_error "42501" "must be owner of database"), s)
        else if decide (session s = Some name) then
          (Thrown (db_error "55006" "cannot drop the currently open database"), s)
        else (Returned (mkResult [] []),
              with_catalog (filter (fun n => n ≠ name) (catalog s)) s)
      else (Thrown (no_database name), s)
  | Truncate names =>
      if forallb (fun n => has_table n s) names then
        (Returned (mkResult [] []), with_tables (truncate_named names (tables s)) s)
      else (Thrown (db_error "42P01" "relation does not exist"), s)
  | Malformed => (Thrown (db_error "42601" "syntax error"), s)
  | Other =>
      match rejects s sql with
      | Some code => (Thrown (db_error code "statement rejected"), s)
      | None => (Returned (mkResult [] []), with_applied (applied s ++ [sql]) s)
      end
  end.

(** [connection.execute] on a [Client] of [pg]: the property is
    [undefined], calling it throws. *)
Definition execute (sql : string) (params : list Value) (s : State)
  : Outcome (list QueryResult) * State :=
  (Thrown (TypeError "connection.execute is not a function"), s).

Definition hash (plain : string) (s : State) : Outcome string * State :=
  (Returned (kdf s (salt s) plain), with_salt (salt s + 1)%N s).

(** *** The schema-version table of Postgrator

    A base table like the others, one row per applied migration; the
    version the ledger stands at is the greatest one recorded, 0 when
    the table is empty. *)

Fixpoint table_named (name : string) (t : list (string * Table)) : option Table :=
  match t with
  | [] => None
  | (n, tb) :: t' => if decide (n = name) then Some tb else table_named name t'
  end.

Definition versions (tb : Table) : list N :=
  omap (fun r => match prop r "version" with
                 | VNumber z => Some (Z.to_N z)
                 | _ => None
                 end) (table_rows tb).

Definition version_of (table : string) (s : State) : option N :=
  match table_named table (tables s) with
  | Some tb => Some (foldr N.max 0%N (versions tb))
  | None => None
  end.

(** The ledger [migrate.ts] configures. *)
Definition ledger (s : State) : option N := version_of "schemaversion" s.

Fixpoint add_row (name : string) (row : Row) (t : list (string * Table))
  : list (string * Table) :=
  match t with
  | [] => []
  | (n, tb) :: t' =>
      if decide (n = name) then (n, mkTable (next_id tb) (table_rows tb ++ [row])) :: t'
      else (n, tb) :: add_row name row t'
  end.

(** Reading the version creates the table when it is not there. *)
Definition read_ledger (table : string) (s : State) : Outcome N * State :=
  match version_of table s with
  | Some v => (Returned v, s)
  | None => (Returned 0%N, with_tables (tables s ++ [(table, mkTable 1 [])]) s)
  end.

Definition record_version (table : string) (v : N) (s : State) : Outcome unit * State :=
  if has_table table s then
    (Returned tt, with_tables (add_row table [("version", VNumber (Z.of_N v))] (tables s)) s)
  else (Thrown (db_error "42P01" "relation does not exist"), s).

(** *** [path.join]

    The segments are joined with [/] and the result is normalised: empty
    and [.] segments go, [..] takes the segment before it away. *)

Fixpoint split_on (sep : ascii) (s : string) : list string :=
  match s with
  | EmptyString => [EmptyString]
  | String c s' =>
      if Ascii.eqb c sep then EmptyString :: split_on sep s'
      else match split_on sep s' with
           | seg :: segs => String c seg :: segs
           | [] => [String c EmptyString]
           end
  end.

(** One segment more on the stack of the segments kept, last one first. *)
Definition push_segment (allow_above_root : bool) (kept : list string) (seg : string)
  : list string :=
  if decide (seg = EmptyString) then kept
  else if decide (seg = ".") then kept
  else if decide (seg = "..") then
    match kept with
    | top :: below => if decide (top = "..") then seg :: kept else below
    | [] => if allow_above_root then [seg] else []
    end
  else seg :: kept.

Definition starts_with_slash (s : string) : bool :=
  match s with
  | String c _ => Ascii.eqb c "/"%char
  | EmptyString => false
  end.

Fixpoint ends_with_slash (s : string) : bool :=
  match s with
  | EmptyString => false
  | String c EmptyString => Ascii.eqb c "/"%char
  | String _ s' => ends_with_slash s'
  end.

Definition normalize (path : string) : string :=
  if decide (path = EmptyString) then "."
  else
    let absolute := starts_with_slash path in
    let kept := foldl (push_segment (negb absolute)) [] (split_on "/"%char path) in
    let inner := String.concat "/" (rev kept) in
    if decide (inner = EmptyString) then
      if absolute then "/" else if ends_with_slash path then "./" else "."
    else
      (if absolute then "/" else EmptyString)
      +:+ inner +:+ (if ends_with_slash path then "/" else EmptyString).

Definition join_path (a b : string) : string :=
  match filter (fun part => part ≠ EmptyString) [a; b] with
  | [] => "."
  | parts => normalize (String.concat "/" parts)
  end.

#[global] Instance collaborators : Collaborators State := {
  pg_connect := connect;
  pg_query := query;
  pg_execute := execute;
  pg_end := close;
  scrypt := hash;
  exists_sync := fun path s => bool_decide (path ∈ directories s);
  path_join := join_path;
  migration_files := fun pattern s => files s pattern;
  ledger_read := read_ledger;
  ledger_record := record_version
}.

(** The rows of a table, [[]] when the table does not exist. *)
Definition rows_of (name : string) (s : State) : list Row :=
  match table_named name (tables s) with
  | Some tb => table_rows tb
  | None => []
  end.

End Sim.

(** ** Concrete inputs

    A server, environments and process states on which the scripts are
    run in the examples below. *)
Module Demo.

(** The text of [001.do.users.sql]. *)
Definition users_sql : string := "CREATE TABLE users (
  id SERIAL PRIMARY KEY,
  email VARCHAR(255) UNIQUE NOT NULL,
  username VARCHAR(255) NOT NULL,
  password VARCHAR(255) NOT NULL,
  created_at TIMESTAMPTZ DEFAULT NOW() NOT NULL,
  updated_at TIMESTAMPTZ DEFAULT NOW() NOT NULL
);

-- Create the trigger function
CREATE OR REPLACE FUNCTION set_updated_at()
RETURNS TRIGGER AS $$
BEGIN
  NEW.updated_at = NOW();
  RETURN NEW;
END;
$$ LANGUAGE plpgsql;

-- Attach the trigger to the users table
CREATE TRIGGER trigger_set_updated_at
BEFORE UPDATE ON users
FOR EACH ROW
EXECUTE FUNCTION set_updated_at();
".

(** The SQL of [002.do.tasks.sql]. *)
Definition tasks_sql : string := "CREATE TABLE tasks (
  id SERIAL PRIMARY KEY,
  name VARCHAR(255) NOT NULL,
  author_id INT NOT NULL,
  assigned_user_id INT,
  filename VARCHAR(255),
  status VARCHAR(50) NOT NULL,
  created_at TIMESTAMPTZ DEFAULT NOW() NOT NULL,
  updated_at TIMESTAMPTZ DEFAULT NOW() NOT NULL,
  FOREIGN KEY (author_id) REFERENCES users(id),
  FOREIGN KEY (assigned_user_id) REFERENCES users(id)
);

-- Create the trigger function (if not already created)
CREATE OR REPLACE FUNCTION set_updated_at()
RETURNS TRIGGER AS $$
BEGIN
  NEW.updated_at = NOW();
  RETURN NEW;
END;
$$ LANGUAGE plpgsql;

-- Attach the trigger to the tasks table
CREATE TRIGGER trigger_tasks_set_updated_at
BEFORE UPDATE ON tasks
FOR EACH ROW
EXECUTE FUNCTION set_updated_at();
".

(** A third migration, for the runs that need one more file. *)
Definition third_sql : string := "ALTER TABLE tasks ADD COLUMN due_at TIMESTAMPTZ".

Definition migrations : list Migration :=
  [ mkMigration 3 third_sql; mkMigration 1 users_sql; mkMigration 2 tasks_sql ].

Definition old_user : Row :=
  [("id", VNumber 41); ("username", VString "someone"); ("email", VString "basic@example.com"); ("password", VString "old")].

(** The server once the database [app] exists and both migrations of the
    repository are applied: every client let in, a role that may create
    databases, the tables of the two migrations and the schema-version
    table of Postgrator, one row left in [users].  The checkout is at
    [/app/backend], with one more migration file than the ledger
    records. *)
Definition server : Sim.State :=
  Sim.mkState (fun _ => true) "postgres" None true ["postgres"; "app"] None
    [ ("users", Sim.mkTable 42 [old_user]);
      ("tasks", Sim.mkTable 1 []);
      ("schemaversion", Sim.mkTable 1 [ [("version", VNumber 1)]; [("version", VNumber 2)] ]) ]
    [users_sql; tasks_sql] (fun _ => None)
    (fun n plain => "scrypt:" +:+ pretty.pretty n +:+ ":" +:+ plain) 7
    ["/app/backend/migrations"]
    (fun _ => migrations).

(** The same server when only the first migration is applied. *)
Definition behind : Sim.State :=
  Sim.with_applied [users_sql]
    (Sim.with_tables
       [ ("users", Sim.mkTable 42 [old_user]);
         ("schemaversion", Sim.mkTable 1 [ [("version", VNumber 1)] ]) ]
       server).

(** The same server before the database [app] is created. *)
Definition pristine : Sim.State :=
  Sim.with_applied [] (Sim.with_tables [] (Sim.with_catalog ["postgres"] server)).

(** The same server for a role without the right to create databases. *)
Definition restricted : Sim.State := Sim.with_createdb false server.

(** The same server seen from a checkout without a migration directory. *)
Definition bare : Sim.State := Sim.with_directories [] server.

(** The same server with one more table, whose name holds a double quote:
    the truncation statement built from it is not well formed. *)
Definition quirky : Sim.State :=
  Sim.with_tables (Sim.tables server ++ [("odd" +:+ dq +:+ "name", Sim.mkTable 1 [])]) server.

Definition connection_settings : gmap string string :=
  {[ "POSTGRES_HOST" := "localhost"; "POSTGRES_PORT" := "5432";
     "POSTGRES_DATABASE" := "app"; "POSTGRES_USER" := "app";
     "POSTGRES_PASSWORD" := "secret" ]}.

(** All three permission flags set to [flag]. *)
Definition flags (flag : string) : gmap string string :=
  <[ "CAN_CREATE_DATABASE" := flag ]>
    (<[ "CAN_DROP_DATABASE" := flag ]>
       (<[ "CAN_SEED_DATABASE" := flag ]> connection_settings)).

(** The same settings for the administrator, whose own database is
    [postgres]. *)
Definition as_admin (e : gmap string string) : gmap string string :=
  <[ "POSTGRES_USER" := "postgres" ]> e.

Definition start (e : gmap string string) (s : Sim.State) : Proc Sim.State :=
  mkProc e "/app/backend/scripts" [] s.

End Demo.

(** * The vocabulary of the statements *)

Local Open Scope list_scope.

(** [emits P m]: on every exit, a run of [m] has only appended events
    to the trace, each of them satisfying [P], and has left
    [process.env] and the module's directory as they were. *)
Definition emits {W A} (P : Event -> Prop) (m : Script W A) : Prop :=
  forall p, exists evs,
    trace (m p).2 = trace p ++ evs /\ Forall P evs
    /\ env (m p).2 = env p /\ dirname (m p).2 = dirname p.

(** What happens between opening and closing: anything but a second
    [connect] or an [end]. *)
Definition inner (e : Event) : Prop := e <> ClientEnd /\ is_connect e = false.

(** An event that does not touch the connection. *)
Definition off_connection (e : Event) : Prop := on_connection e = false.

(** [end()] alone, and [end().catch(err => console.error(err))]. *)
Definition releases {W} (fin : Script W unit) : Prop :=
  forall q, exists tail,
    trace (fin q).2 = trace q ++ ClientEnd :: tail /\ Forall off_connection tail.

(** The shape of every operation: connect, then a body in a [try] whose
    [finally] ends the connection. *)
Definition released_after {W} `{Collaborators W} (with_database : bool)
    (op : Script W unit) (p : Proc W) : Prop :=
  forall w1,
    pg_connect (client_config (env p) with_database) (world p) = (Returned tt, w1) ->
    exists mid tail,
      trace (op p).2
      = trace p ++ Connect (client_config (env p) with_database) :: mid ++ ClientEnd :: tail
      /\ Forall inner mid /\ Forall off_connection tail.

(** The three gated scripts. *)
Inductive Gated := CreateDb | DropDb | SeedDb.

Definition flag_of (op : Gated) : string :=
  match op with
  | CreateDb => "CAN_CREATE_DATABASE"
  | DropDb => "CAN_DROP_DATABASE"
  | SeedDb => "CAN_SEED_DATABASE"
  end.

(** The message of the error a closed gate throws. *)
Definition refusal_of (op : Gated) : string :=
  match op with
  | CreateDb => "You can't create the database. Set `CAN_CREATE_DATABASE=1` environment variable to allow this operation."
  | DropDb => "You can't drop the database. Set `CAN_DROP_DATABASE=1` environment variable to allow this operation."
  | SeedDb => "You can't seed the database. Set `CAN_SEED_DATABASE=1` environment variable to allow this operation."
  end.

(** The script as a whole: the gate, then the operation. *)
Definition script_of {W} `{Collaborators W} (op : Gated) : Script W unit :=
  match op with
  | CreateDb => create_database_ts
  | DropDb => drop_database_ts
  | SeedDb => seed_ts
  end.

(** The function the script calls once its gate is passed. *)
Definition operation_of {W} `{Collaborators W} (op : Gated) : Script W unit :=
  match op with
  | CreateDb => createDatabase
  | DropDb => dropDatabase
  | SeedDb => seed
  end.

(** The statement [create-database.ts] sends. *)
Definition create_sql (e : gmap string string) : string :=
  "CREATE DATABASE " +:+ dq +:+ Js.template (e !! "POSTGRES_DATABASE") +:+ dq.

(** The statement [drop-database.ts] sends. *)
Definition drop_sql (e : gmap string string) : string :=
  "DROP DATABASE " +:+ dq +:+ Js.template (e !! "POSTGRES_DATABASE") +:+ dq.

(** The state of the process once [connect] has returned. *)
Definition connected {W} (p : Proc W) (with_database : bool) (w : W) : Proc W :=
  mkProc (env p) (dirname p)
         (trace p ++ [Connect (client_config (env p) with_database)]) w.

(** The state of the process once [events] have happened, the world being [w]. *)
Definition later {W} (p : Proc W) (events : list Event) (w : W) : Proc W :=
  mkProc (env p) (dirname p) (trace p ++ events) w.

(** The directory [migrate.ts] looks for. *)
Definition migration_dir {W} `{Collaborators W} (p : Proc W) : string :=
  path_join (dirname p) "../migrations".

(** The error [migrate.ts] throws when that directory is absent. *)
Definition missing_dir_error {W} `{Collaborators W} (p : Proc W) : JsError :=
  Error ("Migration directory " +:+ dq +:+ migration_dir p +:+ dq
         +:+ " does not exist. Skipping migrations.").

(** A name without a double quote: what the scripts can put between the
    quotes of their statement without changing its shape. *)
Fixpoint quote_free (s : string) : bool :=
  match s with
  | EmptyString => true
  | String c s' => negb (Ascii.eqb c (ascii_of_nat 34)) && quote_free s'
  end.

(** The database the scripts name. *)
Definition database_name (e : gmap string string) : string :=
  Js.template (e !! "POSTGRES_DATABASE").

(** What is left of an operation once its [try] block is through:
    [events] were added, the world is [w], and [finally] ends the
    connection. *)
Definition finished {W} `{Collaborators W} (p : Proc W) (events : list Event) (w : W)
  : Outcome unit * Proc W :=
  ((pg_end w).1, later p (events ++ [ClientEnd]) (pg_end w).2).

(** Two invocations of [createDatabase] in a row when the server turns
    the connection down for want of the database: both throw the
    server's error from [connect], nothing but the two connection
    attempts happened, and the database is still not there. *)
Definition create_never_settles (p : Proc Sim.State) : Prop :=
  let once := createDatabase p in
  let twice := createDatabase once.2 in
  once.1 = Thrown (Sim.no_database (database_name (env p)))
  /\ twice.1 = Thrown (Sim.no_database (database_name (env p)))
  /\ world once.2 = world p
  /\ world twice.2 = world p
  /\ trace twice.2
     = trace p ++ [ Connect (client_config (env p) true);
                    Connect (client_config (env p) true) ]
  /\ database_name (env p) ∉ Sim.catalog (world twice.2).

(** Two invocations of [dropDatabase] in a row: neither throws, the
    database is gone after the first, the second changes nothing in the
    store and reports that the database does not exist. *)
Definition drop_twice_settles (p : Proc Sim.State) : Prop :=
  let once := dropDatabase p in
  let twice := dropDatabase once.2 in
  once.1 = Returned tt /\ twice.1 = Returned tt
  /\ (database_name (env p) ∉ Sim.catalog (world once.2))
  /\ world twice.2 = world once.2
  /\ trace twice.2
     = trace once.2
       ++ [ Connect (client_config (env p) false);
            Query (drop_sql (env p));
            ConsoleLog ("Database " +:+ database_name (env p) +:+ " does not exist.");
            ConsoleLog ("Database " +:+ database_name (env p) +:+ " has been dropped successfully.");
            ClientEnd ].

(** A script started as a new process. *)
Definition fresh {W} (e : gmap string string) (dir : string) (w : W) : Proc W :=
  mkProc e dir [] w.

(** Two columns of every row of a table. *)
Definition columns (table c1 c2 : string) (s : Sim.State) : list (Value * Value) :=
  (fun r => (prop r c1, prop r c2)) <$> Sim.rows_of table s.

(** The roles a user is associated with in [user_roles]. *)
Definition roles_held (user_id : Value) (s : Sim.State) : list Value :=
  (fun r => prop r "role_id")
    <$> filter (fun r => prop r "user_id" = user_id) (Sim.rows_of "user_roles" s).

(** A table just truncated: no row, the identity sequence back at 1. *)
Definition empty_table : Sim.Table := Sim.mkTable 1 [].

(** The statement that truncates every table of the enumeration. *)
Definition truncate_all_sql (result : QueryResult) : string :=
  String.concat "; " (truncate_sql <$> ((fun row => prop row "table_name") <$> rows result)).

(** [p1] is [p] after a truncation that went through: the base tables
    were enumerated and, when there are any, the one statement that
    truncates them all was sent and accepted. *)
Definition truncated {W} `{Collaborators W} (p p1 : Proc W) : Prop :=
  exists result w1,
    pg_query select_tables_sql (world p) = (Returned result, w1)
    /\ ((rows result = [] /\ p1 = later p [Query select_tables_sql] w1)
        \/ (rows result <> []
            /\ exists r w2,
                 pg_query (truncate_all_sql result) w1 = (Returned r, w2)
                 /\ p1 = later p [ Query select_tables_sql;
                                   Query (truncate_all_sql result);
                                   ConsoleLog "All tables have been truncated successfully." ]
                               w2)).

(** An event that is not an insert sent with [connection.execute]. *)
Definition no_insert (ev : Event) : Prop := is_execute ev = false.

(** An event that is not a call of the password manager. *)
Definition no_hashing (ev : Event) : Prop := forall plain, ev <> ScryptHash plain.

(** An event that, when it inserts a user, passes [h] as the password. *)
Definition carries (h : string) (ev : Event) : Prop :=
  forall params, ev = Execute insert_user_sql params -> params !! 2%nat = Some (VString h).

(** What the runner does for one pending migration. *)
Definition migration_steps (m : Migration) : list Event :=
  [ Query (body m); LedgerRecord "schemaversion" (version m) ].

(** The store once the migrations [ms] were applied in that order: each
    body recorded, each version added to the ledger. *)
Definition migrated (ms : list Migration) (s : Sim.State) : Sim.State :=
  foldl (fun s m =>
           Sim.with_tables
             (Sim.add_row "schemaversion" [("version", VNumber (Z.of_N (version m)))]
                (Sim.tables s))
             (Sim.with_applied (Sim.applied s ++ [body m]) s))
        s ms.

(** The SQL of a migration is a statement the simulated store takes as it
    is: none of the administrative statements it interprets, and not one
    it rejects. *)
Definition plain_sql (s : Sim.State) (m : Migration) : Prop :=
  Sim.read_statement (body m) = Sim.Other /\ Sim.rejects s (body m) = None.

(** The files the runner of [migrate.ts] sees: those matching its pattern. *)
Definition listing (dir : string) (s : Sim.State) : list Migration :=
  Sim.files s (Sim.join_path (Sim.join_path dir "../migrations") "*").

(** The Query events of a trace: the SQL sent through [connection.query]. *)
Definition queries (t : list Event) : list string :=
  omap (fun ev => match ev with Query sql => Some sql | _ => None end) t.

(** Two runs of the migration runner in a row, files 001, 002 and 003 on
    disk: the first run sends the bodies of 002 and 003, in that order, and
    nothing else through [connection.query], and leaves the ledger at 3;
    the second sends no statement and leaves the store as it was. *)
Definition runs_002_003_then_nothing (e : gmap string string) (dir : string)
    (s : Sim.State) (b2 b3 : string) : Prop :=
  let once := doMigration (fresh e dir s) in
  let twice := doMigration (fresh e dir (world once.2)) in
  once.1 = Returned tt
  /\ queries (trace once.2) = [b2; b3]
  /\ trace once.2
     = [ Connect (client_config e true);
         ExistsSync (migration_dir (fresh e dir s));
         LedgerRead "schemaversion";
         Query b2; LedgerRecord "schemaversion" 2;
         Query b3; LedgerRecord "schemaversion" 3;
         ConsoleLog "Migration completed!"; ClientEnd ]
  /\ Sim.ledger (world once.2) = Some 3%N
  /\ Sim.applied (world once.2) = Sim.applied s ++ [b2; b3]
  /\ twice.1 = Returned tt
  /\ queries (trace twice.2) = []
  /\ world twice.2 = world once.2.

(** ** More collaborators and inputs

    Variations of the simulated store, for the properties of the scripts
    that show when a collaborator fails or answers differently. *)
Module Variants.

(** The simulated store behind a client that has an [execute] method and
    answers an insert as PostgreSQL answers an [INSERT] without
    [RETURNING]: one result, no row. *)
Definition rowless : Collaborators Sim.State := {|
  pg_connect := Sim.connect;
  pg_query := Sim.query;
  pg_execute := fun _ _ s => (Returned [mkResult [] []], s);
  pg_end := Sim.close;
  scrypt := Sim.hash;
  exists_sync := fun path s => bool_decide (path ∈ Sim.directories s);
  path_join := Sim.join_path;
  migration_files := fun pattern s => Sim.files s pattern;
  ledger_read := Sim.read_ledger;
  ledger_record := Sim.record_version
|}.

(** The simulated store with a password manager that throws. *)
Definition hashless : Collaborators Sim.State := {|
  pg_connect := Sim.connect;
  pg_query := Sim.query;
  pg_execute := Sim.execute;
  pg_end := Sim.close;
  scrypt := fun _ s => (Thrown (Error "scrypt failed"), s);
  exists_sync := fun path s => bool_decide (path ∈ Sim.directories s);
  path_join := Sim.join_path;
  migration_files := fun pattern s => Sim.files s pattern;
  ledger_read := Sim.read_ledger;
  ledger_record := Sim.record_version
|}.

(** The simulated store behind a client whose [end] throws. *)
Definition hanging : Collaborators Sim.State := {|
  pg_connect := Sim.connect;
  pg_query := Sim.query;
  pg_execute := Sim.execute;
  pg_end := fun s => (Thrown (Error "socket hang up"), s);
  scrypt := Sim.hash;
  exists_sync := fun path s => bool_decide (path ∈ Sim.directories s);
  path_join := Sim.join_path;
  migration_files := fun pattern s => Sim.files s pattern;
  ledger_read := Sim.read_ledger;
  ledger_record := Sim.record_version
|}.

(** The simulated store behind a client that has an [execute] method and
    answers every insert with one row, whose [id] is the first parameter
    of the insert. *)
Definition first_parameter (sql : string) (params : list Value) : Value :=
  default VUndefined (head params).

Definition labelling : Collaborators Sim.State := {|
  pg_connect := Sim.connect;
  pg_query := Sim.query;
  pg_execute := fun sql params s =>
                  (Returned [mkResult [ [("id", first_parameter sql params)] ] []], s);
  pg_end := Sim.close;
  scrypt := Sim.hash;
  exists_sync := fun path s => bool_decide (path ∈ Sim.directories s);
  path_join := Sim.join_path;
  migration_files := fun pattern s => Sim.files s pattern;
  ledger_read := Sim.read_ledger;
  ledger_record := Sim.record_version
|}.

(** The server of the examples, out of reach. *)
Definition unreachable : Sim.State := Sim.with_authenticates (fun _ => false) Demo.server.

(** The server of the examples with the first migration applied,
    rejecting the second (its table exists already). *)
Definition picky : Sim.State :=
  Sim.with_rejects (fun sql => if decide (sql = Demo.tasks_sql) then Some "42P07" else None)
    Demo.behind.

(** The connection settings without [POSTGRES_DATABASE]. *)
Definition nameless : gmap string string :=
  <[ "CAN_CREATE_DATABASE" := "1" ]>
    (<[ "CAN_DROP_DATABASE" := "1" ]>
       (delete "POSTGRES_DATABASE" Demo.connection_settings)).

End Variants.

(** The process with one more variable in its environment. *)
Definition with_variable {W} (name value : string) (p : Proc W) : Proc W :=
  mkProc (<[ name := value ]> (env p)) (dirname p) (trace p) (world p).

(** The events of a trace that send a statement to the store. *)
Definition statements (events : list Event) : list Event :=
  List.filter is_statement events.

(** The inserts of a trace. *)
Definition inserts (events : list Event) : list Event :=
  List.filter is_execute events.

(** What [finally] of [doMigration] adds to the trace, [end] having had
    that outcome: the [end], and the log line of its error if it threw. *)
Definition end_logged (o : Outcome unit) : list Event :=
  ClientEnd :: match o with
               | Returned _ => []
               | Thrown e => [ConsoleError None e]
               end.

(** The insert of a user the seed loop sends. *)
Definition user_insert (u : SeedUser) (hash : string) : Event :=
  Execute insert_user_sql [VString (username u); VString (email u); VString hash].

(** The answer to an insert carries no row to read an [id] from: the
    awaited array is empty, or its first result has no rows. *)
Definition rowless_answer (answer : list QueryResult) : Prop :=
  answer = [] \/ exists r more, answer = r :: more /\ rows r = [].

(** The [TypeError] of reading [.rows] or [[0].id] on that answer. *)
Definition rowless_error (answer : list QueryResult) : JsError :=
  match answer with
  | [] => TypeError "Cannot read properties of undefined (reading 'rows')"
  | _ :: _ => TypeError "Cannot read properties of undefined (reading 'id')"
  end.

(** [execQuery], the function [migrate.ts] hands to Postgrator. *)
Definition exec_query {W} `{Collaborators W} (query_text : string) : Script W QueryResult :=
  result ← query query_text;
  mret (mkResult (rows result) (fields result)).

(** The state of [doMigration] once the directory was found. *)
Definition checked {W} `{Collaborators W} (p : Proc W) (w : W) : Proc W :=
  later (connected p true w) [ExistsSync (migration_dir p)] w.

(** One clause of the truncation statement, for a table of that name. *)
Definition truncate_clause (name : string) : string :=
  "TRUNCATE TABLE " +:+ dq +:+ name +:+ dq +:+ " RESTART IDENTITY CASCADE".

(** The tables of a schema, each without a row and with its identity
    sequence restarted. *)
Definition emptied (tables : list (string * Sim.Table)) : list (string * Sim.Table) :=
  map (fun t => (t.1, empty_table)) tables.

(** What [truncateTables] adds to the trace when it returns, on a store
    with these tables. *)
Definition truncation_events (tables : list (string * Sim.Table)) : list Event :=
  match tables with
  | [] => [Query select_tables_sql]
  | _ :: _ =>
      [ Query select_tables_sql;
        Query (String.concat "; " (truncate_clause <$> (fst <$> tables)));
        ConsoleLog "All tables have been truncated successfully." ]
  end.

(** The first user of the roster. *)
Definition first_user : SeedUser := mkUser "basic" "basic@example.com".

(** The error of calling [execute] on the client of [pg]. *)
Definition not_a_function : JsError := TypeError "connection.execute is not a function".

(** What a run of [seed] adds to the trace on the simulated store, the
    schema holding these tables and the hash being [h]. *)
Definition seed_events (cfg : ClientConfig) (tables : list (string * Sim.Table))
    (h : string) : list Event :=
  Connect cfg
    :: truncation_events tables
    ++ [ ScryptHash "Password123$";
         user_insert first_user h;
         ConsoleError (Some "Error seeding database:") not_a_function;
         ClientEnd ].

(** The associations a trace inserts: the parameters of its inserts into
    [user_roles], user first. *)
Definition links (events : list Event) : list (Value * Value) :=
  omap (fun ev =>
          match ev with
          | Execute sql [u; r] =>
              if decide (sql = insert_user_role_sql) then Some (u, r) else None
          | _ => None
          end) events.

(** A client whose [execute] returns, and answers the insert of a user
    or of a role with a first row that carries an [id]: the one [ident]
    gives for that statement and those parameters. *)
Definition answers_with_ids {W} `{Collaborators W}
    (ident : string -> list Value -> Value) : Prop :=
  forall sql params w, exists answer w',
    pg_execute sql params w = (Returned answer, w')
    /\ (sql <> insert_user_role_sql ->
        exists r more row rest,
          answer = r :: more /\ rows r = row :: rest /\ prop row "id" = ident sql params).

(** The [id]s such a client answers for a user and for the role named
    after the user. *)
Definition user_id_by (ident : string -> list Value -> Value) (hash : string)
    (u : SeedUser) : Value :=
  ident insert_user_sql [VString (username u); VString (email u); VString hash].

Definition role_id_by (ident : string -> list Value -> Value) (u : SeedUser) : Value :=
  ident insert_role_sql [VString (username u)].

(** The inserts of the loop over a roster, [acc] being the roles
    accumulated before it. *)
Fixpoint loop_events (ident : string -> list Value -> Value) (hash : string)
    (acc : list Value) (roster : list SeedUser) : list Event :=
  match roster with
  | [] => []
  | u :: rest =>
      [ user_insert u hash; Execute insert_role_sql [VString (username u)] ]
      ++ ((fun r => Execute insert_user_role_sql [user_id_by ident hash u; r])
            <$> (acc ++ [role_id_by ident u]))
      ++ loop_events ident hash (acc ++ [role_id_by ident u]) rest
  end.

(** The pairs the [k]-th user of a roster is to be associated with: its
    own [id] with the role of every user up to it. *)
Definition hierarchy (ident : string -> list Value -> Value) (hash : string)
    (roster : list SeedUser) : list (Value * Value) :=
  mjoin (imap (fun k u =>
                 (fun v => (user_id_by ident hash u, role_id_by ident v))
                   <$> take (S k) roster) roster).

(** * The model on small inputs *)

Example Number_of_numeric_strings :
  (fun v => Js.Number (Some v))
    <$> ["1"; "01"; " 1"; "1.0"; "1e0"; "0x1"; "+1"; "10e-1"; "0.99999999999999999999"]
  = replicate 9 Js.one.
Proof. vm_compute. reflexivity. Qed.

Example Number_of_other_strings :
  (fun v => Js.Number (Some v))
    <$> [EmptyString; "0"; "true"; "1 1"; "1,0"; "-1"; "2"; "0.1"; "1e400"]
  = [ S754_zero false; S754_zero false; S754_nan; S754_nan; S754_nan;
      S754_finite true 4503599627370496 (-52);
      S754_finite false 4503599627370496 (-51);
      S754_finite false 7205759403792794 (-56);
      S754_infinity false ].
Proof. vm_compute. reflexivity. Qed.

Example Number_of_undefined : Js.Number None = S754_nan.
Proof. reflexivity. Qed.

Example NaN_differs_from_one : Js.strict_neq S754_nan Js.one = true.
Proof. reflexivity. Qed.

Example truncate_statement_text :
  truncate_all_sql
    (mkResult [ [("table_name", VString "users")]; [("table_name", VString "tasks")] ] [])
  = "TRUNCATE TABLE " +:+ dq +:+ "users" +:+ dq
    +:+ " RESTART IDENTITY CASCADE; TRUNCATE TABLE " +:+ dq +:+ "tasks" +:+ dq
    +:+ " RESTART IDENTITY CASCADE".
Proof. reflexivity. Qed.

Example truncate_statement_read :
  Sim.read_statement
    (truncate_all_sql
       (mkResult [ [("table_name", VString "users")]; [("table_name", VString "tasks")] ] []))
  = Sim.Truncate ["users"; "tasks"].
Proof. vm_compute. reflexivity. Qed.

Example migration_bodies_are_plain_sql :
  Sim.read_statement Demo.users_sql = Sim.Other
  /\ Sim.read_statement Demo.tasks_sql = Sim.Other.
Proof. split; vm_compute; reflexivity. Qed.

Example pending_after_the_first :
  version <$> pending 1 Demo.migrations = [2%N; 3%N].
Proof. vm_compute. reflexivity. Qed.

Example base_tables_query_is_recognised :
  Sim.read_statement select_tables_sql = Sim.SelectBaseTables.
Proof. vm_compute. reflexivity. Qed.

Example paths_are_normalised :
  Sim.join_path "/app/backend/scripts" "../migrations" = "/app/backend/migrations"
  /\ Sim.join_path "/app/backend/migrations" "*" = "/app/backend/migrations/*"
  /\ Sim.join_path "a/b/" "./c/../.." = "a"
  /\ Sim.join_path "x" "../.." = ".."
  /\ Sim.join_path "/" ".." = "/"
  /\ Sim.join_path "a" "b/" = "a/b/"
  /\ Sim.join_path EmptyString EmptyString = ".".
Proof. repeat split; vm_compute; reflexivity. Qed.

(** A refused script leaves an empty trace. *)
Example drop_refused_when_flag_is_zero :
  drop_database_ts (Demo.start (Demo.flags "0") Demo.server)
  = (Thrown (Error (refusal_of DropDb)), Demo.start (Demo.flags "0") Demo.server).
Proof. vm_compute. reflexivity. Qed.

(** The administrator, whose session is on [postgres], drops [app]. *)
Example drop_of_an_existing_database :
  let p := Demo.start (Demo.as_admin (Demo.flags "1")) Demo.server in
  (drop_database_ts p).1 = Returned tt
  /\ Sim.catalog (world (drop_database_ts p).2) = ["postgres"]
  /\ trace (drop_database_ts p).2
     = [ Connect (client_config (Demo.as_admin (Demo.flags "1")) false);
         Query (drop_sql (Demo.flags "1"));
         ConsoleLog "Database app dropped.";
         ConsoleLog "Database app has been dropped successfully.";
         ClientEnd ].
Proof. cbv zeta. repeat split; vm_compute; reflexivity. Qed.

(** The user [app], whose session is on [app], cannot drop it. *)
Example drop_of_the_session_database :
  let p := Demo.start (Demo.flags "1") Demo.server in
  (drop_database_ts p).1 = Returned tt
  /\ Sim.catalog (world (drop_database_ts p).2) = ["postgres"; "app"]
  /\ trace (drop_database_ts p).2
     = [ Connect (client_config (Demo.flags "1") false);
         Query (drop_sql (Demo.flags "1"));
         ConsoleError (Some "Error dropping database:")
           (Sim.db_error "55006" "cannot drop the currently open database");
         ClientEnd ].
Proof. cbv zeta. repeat split; vm_compute; reflexivity. Qed.

(** The client has no [execute]. *)
Example execute_is_not_a_function :
  pg_execute insert_role_sql [VString "basic"] Demo.server
  = (Thrown (TypeError "connection.execute is not a function"), Demo.server).
Proof. reflexivity. Qed.

(** * What a run appends to the trace *)

Section Traces.
Context {W : Type} `{Collaborators W}.

Lemma emits_ret {A} P (a : A) : emits P (mret a : Script W A).
Proof. intros p. exists []. simpl. rewrite app_nil_r. auto. Qed.

Lemma emits_throw {A} P e : emits P (throw e : Script W A).
Proof. intros p. exists []. simpl. rewrite app_nil_r. auto. Qed.

Lemma emits_peek {A} P (f : Proc W -> A) : emits P (peek f).
Proof. intros p. exists []. simpl. rewrite app_nil_r. auto. Qed.

Lemma emits_call {A} P (f : W -> Outcome A * W) : emits P (call f).
Proof.
  intros p. exists []. unfold call. destruct (f (world p)) as [r w].
  simpl. rewrite app_nil_r. auto.
Qed.

Lemma emits_emit (P : Event -> Prop) e : P e -> emits P (emit e : Script W unit).
Proof. intros He p. exists [e]. simpl. auto. Qed.

Lemma emits_bind {A B} P (m : Script W A) (k : A -> Script W B) :
  emits P m -> (forall a, emits P (k a)) -> emits P (m ≫= k).
Proof.
  intros Hm Hk p. unfold mbind, script_bind.
  destruct (Hm p) as (e1 & Ht1 & Hf1 & He1 & Hd1).
  destruct (m p) as [[a | e] p1]; simpl in *.
  - destruct (Hk a p1) as (e2 & Ht2 & Hf2 & He2 & Hd2).
    exists (e1 ++ e2). rewrite Ht2, Ht1, He2, Hd2, app_assoc.
    repeat split; auto. apply Forall_app; auto.
  - exists e1. auto.
Qed.

Lemma emits_try_catch {A} P (body : Script W A) handler :
  emits P body -> (forall e, emits P (handler e)) -> emits P (try_catch body handler).
Proof.
  intros Hb Hh p. unfold try_catch.
  destruct (Hb p) as (e1 & Ht1 & Hf1 & He1 & Hd1).
  destruct (body p) as [[a | e] p1]; simpl in *.
  - exists e1. auto.
  - destruct (Hh e p1) as (e2 & Ht2 & Hf2 & He2 & Hd2).
    exists (e1 ++ e2). rewrite Ht2, Ht1, He2, Hd2, app_assoc.
    repeat split; auto. apply Forall_app; auto.
Qed.

Lemma emits_try_finally {A} P (body : Script W A) fin :
  emits P body -> emits P fin -> emits P (try_finally body fin).
Proof.
  intros Hb Hf p. unfold try_finally.
  destruct (Hb p) as (e1 & Ht1 & Hf1 & He1 & Hd1).
  destruct (body p) as [r p1]; simpl in *.
  destruct (Hf p1) as (e2 & Ht2 & Hf2 & He2 & Hd2).
  exists (e1 ++ e2).
  destruct (fin p1) as [[u | e] p2]; simpl in *;
    rewrite Ht2, Ht1, He2, Hd2, app_assoc;
    repeat split; auto; apply Forall_app; auto.
Qed.

Lemma emits_for_of {A} P (xs : list A) (body : A -> Script W unit) :
  (forall x, emits P (body x)) -> emits P (for_of xs body).
Proof.
  intros Hb. induction xs as [| x xs IH]; simpl.
  - apply emits_ret.
  - apply emits_bind; auto.
Qed.

End Traces.

(** One step of the syntax-directed proof that a script emits only events
  of a kind. *)
Ltac emits_step :=
lazymatch goal with
| |- emits _ (mbind _ _) => apply emits_bind; [| intros ?]
| |- emits _ (mret _) => apply emits_ret
| |- emits _ (throw _) => apply emits_throw
| |- emits _ (peek _) => apply emits_peek
| |- emits _ (call _) => apply emits_call
| |- emits _ (emit _) => apply emits_emit
| |- emits _ (try_catch _ _) => apply emits_try_catch; [| intros ?]
| |- emits _ (try_finally _ _) => apply emits_try_finally
| |- emits _ (for_of _ _) => apply emits_for_of; intros ?
| |- emits _ (if ?c then _ else _) => destruct c
| |- emits _ (match ?x with _ => _ end) => destruct x
| |- emits _ _ =>
    progress unfold getenv, console_log, console_error, connect, query, execute,
      client_end, scryptHash, existsSync, new_client, first_row_id
end.

Ltac emits_auto := repeat emits_step.

(** * The connection is acquired once and released on every exit *)

Section Release.
Context {W : Type} `{Collaborators W}.

Ltac inner_auto := emits_auto; (split; [discriminate | reflexivity]).

Lemma createDB_inner : emits inner createDB.
Proof. unfold createDB. inner_auto. Qed.

Lemma dropDB_inner : emits inner dropDB.
Proof. unfold dropDB. inner_auto. Qed.

Lemma truncateTables_inner : emits inner truncateTables.
Proof. unfold truncateTables. inner_auto. Qed.

Lemma seed_each_inner hash acc roster : emits inner (seed_each hash acc roster).
Proof.
  revert acc. induction roster as [| u roster IH]; intros acc; simpl.
  - apply emits_ret.
  - emits_auto; try (split; [discriminate | reflexivity]). apply IH.
Qed.

Lemma seedUsers_inner roster : emits inner (seedUsers_of roster).
Proof.
  unfold seedUsers_of. emits_step. { inner_auto. }
  emits_step. { apply seed_each_inner. }
  inner_auto.
Qed.

Lemma postgrator_inner pattern table execQuery :
  (forall q, emits inner (execQuery q)) ->
  emits inner (postgrator_migrate pattern table execQuery).
Proof.
  intros Hq. unfold postgrator_migrate.
  do 3 (emits_step; [inner_auto |]).
  emits_step. emits_step; [apply Hq |]. inner_auto.
Qed.

Lemma client_end_releases : releases client_end.
Proof.
  intros q. exists []. unfold client_end, emit, call, mbind, script_bind. simpl.
  destruct (pg_end (world q)) as [[u | e] w]; simpl; auto.
Qed.

Lemma client_end_catch_releases :
  releases (try_catch client_end (fun err => console_error None err)).
Proof.
  intros q. unfold try_catch, client_end, console_error, emit, call, mbind, script_bind.
  simpl. destruct (pg_end (world q)) as [[u | e] w]; simpl.
  - exists []. auto.
  - exists [ConsoleError None e]. rewrite <- app_assoc. split; [reflexivity |].
    repeat constructor.
Qed.

Lemma acquire_release with_database (body fin : Script W unit) p :
  emits inner body -> releases fin ->
  released_after with_database
    (connection ← new_client with_database;
     connect connection;; try_finally body fin) p.
Proof.
  intros Hb Hf w1 Hc.
  unfold new_client, peek, connect, emit, call, mbind, script_bind. simpl.
  rewrite Hc. unfold try_finally.
  set (p1 := mkProc _ _ _ w1).
  destruct (Hb p1) as (mid & Ht & Hm & _ & _).
  destruct (body p1) as [r p2]. simpl in Ht.
  destruct (Hf p2) as (tail & Ht2 & Htl).
  exists mid, tail.
  destruct (fin p2) as [[u | e] p3]; simpl in *;
    rewrite Ht2, Ht; subst p1; simpl; rewrite <- !app_assoc; auto.
Qed.

End Release.



(** * The permission gates *)

Lemma gate_closed {W} `{Collaborators W} (op : Gated) (p : Proc W) :
  Js.strict_neq (Js.Number (env p !! flag_of op)) Js.one = true ->
  script_of op p = (Thrown (Error (refusal_of op)), p).
Proof.
  intros Hne.
  destruct op; simpl in Hne;
    unfold script_of, create_database_ts, drop_database_ts, seed_ts,
      getenv, peek, mbind, script_bind;
    rewrite Hne; reflexivity.
Qed.

Lemma gate_open {W} `{Collaborators W} (op : Gated) (p : Proc W) :
  Js.strict_neq (Js.Number (env p !! flag_of op)) Js.one = false ->
  script_of op p = operation_of op p.
Proof.
  intros Heq.
  destruct op; simpl in Heq;
    unfold script_of, create_database_ts, drop_database_ts, seed_ts,
      getenv, peek, mbind, script_bind;
    rewrite Heq; reflexivity.
Qed.

(** C1. Whenever the numeric value of the gating flag is not exactly 1,
    and so in particular when the flag is missing, [0], [true] or empty,
    the gated script (create, drop, seed) throws its permission error
    and leaves the state of the process as it was: nothing is added to
    the trace, so no connection is opened and no statement is sent, and
    the store is untouched. *)
Theorem closed_gate_throws_before_any_effect :
  (forall v : option string,
      v ∈ [None; Some "0"; Some "true"; Some EmptyString] ->
      Js.strict_neq (Js.Number v) Js.one = true)
  /\ (forall (W : Type) (C : Collaborators W) (op : Gated) (p : Proc W),
         Js.strict_neq (Js.Number (env p !! flag_of op)) Js.one = true ->
         script_of op p = (Thrown (Error (refusal_of op)), p)).
Proof.
  split.
  - intros v Hv.
    repeat (apply elem_of_cons in Hv as [-> | Hv]; [vm_compute; reflexivity |]).
    inversion Hv.
  - intros W C op p. apply gate_closed.
Qed.

Lemma closed_gate_throws_before_any_effect_witness :
  script_of SeedDb (Demo.start Demo.connection_settings Demo.server)
  = (Thrown (Error (refusal_of SeedDb)),
     Demo.start Demo.connection_settings Demo.server).
Proof.
  apply (proj2 closed_gate_throws_before_any_effect Sim.State Sim.collaborators SeedDb).
  vm_compute. reflexivity.
Defined.

(** C9, as the code has it.  The gate does not compare the flag with the
    text [1]: it compares [Number(flag)] with the number 1.  The script
    runs its operation exactly when that number is 1, which holds for the
    text [1] and also for [01], [ 1] and [1.0]; for every flag whose
    number is not 1 it throws the permission error. *)
Theorem gate_opens_on_numeric_one :
  (forall v : option string,
      v ∈ [Some "1"; Some "01"; Some " 1"; Some "1.0"] ->
      Js.strict_eq (Js.Number v) Js.one = true)
  /\ (forall (W : Type) (C : Collaborators W) (op : Gated) (p : Proc W),
         Js.strict_eq (Js.Number (env p !! flag_of op)) Js.one = true ->
         script_of op p = operation_of op p)
  /\ (forall (W : Type) (C : Collaborators W) (op : Gated) (p : Proc W),
         Js.strict_eq (Js.Number (env p !! flag_of op)) Js.one = false ->
         script_of op p = (Thrown (Error (refusal_of op)), p)).
Proof.
  split; [| split].
  - intros v Hv.
    repeat (apply elem_of_cons in Hv as [-> | Hv]; [vm_compute; reflexivity |]).
    inversion Hv.
  - intros W C op p Heq. apply gate_open. unfold Js.strict_neq. rewrite Heq. reflexivity.
  - intros W C op p Hne. apply gate_closed. unfold Js.strict_neq. rewrite Hne. reflexivity.
Qed.

Lemma gate_opens_on_numeric_one_witness :
  script_of DropDb (Demo.start (Demo.flags "1.0") Demo.server)
  = dropDatabase (Demo.start (Demo.flags "1.0") Demo.server)
  /\ script_of DropDb (Demo.start (Demo.flags "yes") Demo.server)
     = (Thrown (Error (refusal_of DropDb)), Demo.start (Demo.flags "yes") Demo.server).
Proof.
  split.
  - apply (proj1 (proj2 gate_opens_on_numeric_one) Sim.State Sim.collaborators DropDb).
    vm_compute. reflexivity.
  - apply (proj2 (proj2 gate_opens_on_numeric_one) Sim.State Sim.collaborators DropDb).
    vm_compute. reflexivity.
Defined.

(** C9 as stated fails: with [CAN_CREATE_DATABASE=01], a flag that is not
    the text [1], the script is not refused; it connects, sends its
    statement and returns. *)
Lemma gate_accepts_a_flag_that_is_not_the_text_1 :
  env (Demo.start (Demo.flags "01") Demo.server) !! flag_of CreateDb = Some "01"
  /\ "01" <> "1"
  /\ (script_of CreateDb (Demo.start (Demo.flags "01") Demo.server)).1 = Returned tt
  /\ trace (script_of CreateDb (Demo.start (Demo.flags "01") Demo.server)).2
     = [ Connect (client_config (Demo.flags "01") true);
         Query ("CREATE DATABASE " +:+ dq +:+ "app" +:+ dq);
         ConsoleLog "Database app already exists.";
         ConsoleLog "Database app has been created successfully.";
         ClientEnd ].
Proof.
  split; [vm_compute; reflexivity |].
  split; [discriminate |].
  split; vm_compute; reflexivity.
Qed.

(** * Store errors *)

Arguments client_config : simpl never.

Ltac run :=
  unfold createDatabase, dropDatabase, createDB, dropDB, seed, doMigration,
    try_finally, try_catch, new_client, connect, query, execute, client_end,
    existsSync, console_log, console_error, getenv, throw, peek, emit, call,
    mbind, script_bind, mret, script_ret, connected, later;
  simpl.

Lemma after_connect {W} `{Collaborators W} {A} with_database (rest : Script W A) p w1 :
  pg_connect (client_config (env p) with_database) (world p) = (Returned tt, w1) ->
  (connection ← new_client with_database; connect connection;; rest) p
  = rest (connected p with_database w1).
Proof.
  intros Hc. unfold new_client, peek, connect, emit, call, mbind, script_bind.
  simpl. rewrite Hc. reflexivity.
Qed.

Lemma connect_refused {W} `{Collaborators W} {A} with_database (rest : Script W A) p e w1 :
  pg_connect (client_config (env p) with_database) (world p) = (Thrown e, w1) ->
  (connection ← new_client with_database; connect connection;; rest) p
  = (Thrown e, later p [Connect (client_config (env p) with_database)] w1).
Proof.
  intros Hc. unfold new_client, peek, connect, emit, call, later, mbind, script_bind.
  simpl. rewrite Hc. reflexivity.
Qed.

(** C5, as the code has it.  A store error other than the benign one is
    rethrown by [createDB] and [dropDB] to their caller, and there it
    stops: [createDatabase] and [dropDatabase] (and [seed], for whatever
    its body throws) catch it, write it to the console instead of their
    success line, end the connection and complete normally, unless
    [end] throws.  The error does not reach the process boundary. *)
Theorem unexpected_store_error_is_logged_and_swallowed :
  forall (W : Type) (C : Collaborators W) (p : Proc W) (e : JsError) (w1 w2 : W),
    (pg_connect (client_config (env p) true) (world p) = (Returned tt, w1) ->
     pg_query (create_sql (env p)) w1 = (Thrown e, w2) ->
     err_code e <> Some "42P04" ->
     createDB (connected p true w1)
     = (Thrown e, later (connected p true w1) [Query (create_sql (env p))] w2)
     /\ createDatabase p
        = ((pg_end w2).1,
           later p [ Connect (client_config (env p) true);
                     Query (create_sql (env p));
                     ConsoleError (Some "Error creating database:") e;
                     ClientEnd ] (pg_end w2).2))
    /\ (pg_connect (client_config (env p) false) (world p) = (Returned tt, w1) ->
        pg_query (drop_sql (env p)) w1 = (Thrown e, w2) ->
        err_code e <> Some "3D000" ->
        dropDB (connected p false w1)
        = (Thrown e, later (connected p false w1) [Query (drop_sql (env p))] w2)
        /\ dropDatabase p
           = ((pg_end w2).1,
              later p [ Connect (client_config (env p) false);
                        Query (drop_sql (env p));
                        ConsoleError (Some "Error dropping database:") e;
                        ClientEnd ] (pg_end w2).2))
    /\ (pg_connect (client_config (env p) true) (world p) = (Returned tt, w1) ->
        forall p2 : Proc W,
          (truncateTables;; seedUsers) (connected p true w1) = (Thrown e, p2) ->
          seed p
          = ((pg_end (world p2)).1,
             later p2 [ ConsoleError (Some "Error seeding database:") e; ClientEnd ]
                   (pg_end (world p2)).2)).
Proof.
  intros W C p e w1 w2. split; [| split].
  - intros Hc Hq Hcode. unfold create_sql in *. split.
    + run. rewrite Hq. destruct (decide _) as [Heq | _]; [contradiction |].
      rewrite <- app_assoc. reflexivity.
    + run. rewrite Hc. simpl. rewrite Hq.
      destruct (decide _) as [Heq | _]; [contradiction |]. simpl.
      destruct (pg_end w2) as [[[] | e'] w3]; simpl; rewrite <- !app_assoc; reflexivity.
  - intros Hc Hq Hcode. unfold drop_sql in *. split.
    + run. rewrite Hq. destruct (decide _) as [Heq | _]; [contradiction |].
      rewrite <- app_assoc. reflexivity.
    + run. rewrite Hc. simpl. rewrite Hq.
      destruct (decide _) as [Heq | _]; [contradiction |]. simpl.
      destruct (pg_end w2) as [[[] | e'] w3]; simpl; rewrite <- !app_assoc; reflexivity.
  - intros Hc p2 Hbody.
    unfold seed. rewrite (after_connect true _ p w1 Hc).
    unfold try_finally, try_catch. rewrite Hbody. run.
    destruct (pg_end (world p2)) as [[[] | e'] w3]; simpl; rewrite <- !app_assoc; reflexivity.
Qed.

Lemma unexpected_store_error_is_logged_and_swallowed_witness :
  createDatabase (Demo.start (Demo.flags "1") Demo.restricted)
  = (Returned tt,
     later (Demo.start (Demo.flags "1") Demo.restricted)
       [ Connect (client_config (Demo.flags "1") true);
         Query (create_sql (Demo.flags "1"));
         ConsoleError (Some "Error creating database:")
           (Sim.db_error "42501" "permission denied to create database");
         ClientEnd ] Demo.restricted).
Proof.
  apply (proj1 (unexpected_store_error_is_logged_and_swallowed
                  Sim.State Sim.collaborators
                  (Demo.start (Demo.flags "1") Demo.restricted)
                  (Sim.db_error "42501" "permission denied to create database")
                  (Sim.with_session (Some "app") Demo.restricted)
                  (Sim.with_session (Some "app") Demo.restricted))).
  - reflexivity.
  - vm_compute. reflexivity.
  - discriminate.
Defined.

(** C5 as stated fails: the server refuses [CREATE DATABASE] with
    SQLSTATE 42501, which is not the benign 42P04, and the script still
    completes normally; nothing is thrown at the process boundary. *)
Lemma store_error_stops_short_of_the_process_boundary :
  pg_query (create_sql (Demo.flags "1")) Demo.restricted
  = (Thrown (Sim.db_error "42501" "permission denied to create database"), Demo.restricted)
  /\ err_code (Sim.db_error "42501" "permission denied to create database") <> Some "42P04"
  /\ (script_of CreateDb (Demo.start (Demo.flags "1") Demo.restricted)).1 = Returned tt
  /\ is_thrown (script_of CreateDb (Demo.start (Demo.flags "1") Demo.restricted)).1 = false.
Proof.
  split; [vm_compute; reflexivity |].
  split; [discriminate |].
  split; vm_compute; reflexivity.
Qed.

(** * The migration directory *)

(** C7, as the code has it.  [doMigration] opens its connection first.
    When the migration directory is absent, the error is thrown after
    that, before Postgrator is constructed or any statement is sent; it
    is caught and written to the console, the connection is ended, and
    the run completes normally. *)
Theorem missing_directory_is_logged_after_connecting :
  forall (W : Type) (C : Collaborators W) (p : Proc W) (w1 : W),
    pg_connect (client_config (env p) true) (world p) = (Returned tt, w1) ->
    exists_sync (migration_dir p) w1 = false ->
    doMigration p
    = (Returned tt,
       later p ([ Connect (client_config (env p) true);
                  ExistsSync (migration_dir p);
                  ConsoleError None (missing_dir_error p);
                  ClientEnd ]
                ++ match (pg_end w1).1 with
                   | Returned _ => []
                   | Thrown e => [ConsoleError None e]
                   end)
             (pg_end w1).2).
Proof.
  intros W C p w1 Hc Hdir.
  unfold doMigration. rewrite (after_connect true _ p w1 Hc).
  unfold missing_dir_error, migration_dir in *.
  unfold try_finally, try_catch, existsSync, client_end, console_error, throw,
    peek, emit, call, mbind, script_bind, connected, later.
  simpl. rewrite Hdir. simpl.
  destruct (pg_end w1) as [[[] | e'] w2]; simpl; rewrite <- !app_assoc; reflexivity.
Qed.

Lemma missing_directory_is_logged_after_connecting_witness :
  doMigration (Demo.start (Demo.flags "1") Demo.bare)
  = (Returned tt,
     later (Demo.start (Demo.flags "1") Demo.bare)
       [ Connect (client_config (Demo.flags "1") true);
         ExistsSync "/app/backend/migrations";
         ConsoleError None (missing_dir_error (Demo.start (Demo.flags "1") Demo.bare));
         ClientEnd ] Demo.bare).
Proof.
  apply (missing_directory_is_logged_after_connecting Sim.State Sim.collaborators
           (Demo.start (Demo.flags "1") Demo.bare)
           (Sim.with_session (Some "app") Demo.bare)).
  - reflexivity.
  - reflexivity.
Defined.

(** C7 as stated fails: with no migration directory the first thing the
    run does is still to open the connection, and the run is not fatal. *)
Lemma connection_is_opened_before_the_directory_check :
  exists_sync (migration_dir (Demo.start (Demo.flags "1") Demo.bare)) Demo.bare = false
  /\ trace (migrate_ts (Demo.start (Demo.flags "1") Demo.bare)).2 !! 0%nat
     = Some (Connect (client_config (Demo.flags "1") true))
  /\ trace (migrate_ts (Demo.start (Demo.flags "1") Demo.bare)).2 !! 1%nat
     = Some (ExistsSync "/app/backend/migrations")
  /\ (migrate_ts (Demo.start (Demo.flags "1") Demo.bare)).1 = Returned tt.
Proof.
  repeat split; vm_compute; reflexivity.
Qed.

(** * Creating and dropping against the simulated store *)

Lemma strip_app (pre s : string) : Sim.strip pre (pre +:+ s) = Some s.
Proof.
  induction pre as [| a pre IH]; simpl; [reflexivity |].
  rewrite Ascii.eqb_refl. exact IH.
Qed.

Lemma read_ident_quoted (n rest : string) :
  quote_free n = true -> Sim.read_ident (n +:+ dq +:+ rest) = Some (n, rest).
Proof.
  induction n as [| c n IH]; simpl; intros Hq; [reflexivity |].
  apply andb_true_iff in Hq as [Hc Hn].
  apply negb_true_iff in Hc. rewrite Hc, (IH Hn). reflexivity.
Qed.

Lemma quoted_after_keywords (keywords n : string) :
  quote_free n = true ->
  Sim.quoted_after keywords (keywords +:+ dq +:+ n +:+ dq) = Some (Some n).
Proof.
  intros Hq. unfold Sim.quoted_after.
  rewrite strip_app, strip_app.
  replace (n +:+ dq) with (n +:+ dq +:+ EmptyString) by reflexivity.
  rewrite (read_ident_quoted n EmptyString Hq). reflexivity.
Qed.

Lemma read_create (n : string) :
  quote_free n = true ->
  Sim.read_statement ("CREATE DATABASE " +:+ dq +:+ n +:+ dq) = Sim.CreateDatabase n.
Proof.
  intros Hq. unfold Sim.read_statement.
  rewrite (quoted_after_keywords "CREATE DATABASE " n Hq). reflexivity.
Qed.

Lemma read_drop (n : string) :
  quote_free n = true ->
  Sim.read_statement ("DROP DATABASE " +:+ dq +:+ n +:+ dq) = Sim.DropDatabase n.
Proof.
  intros Hq. unfold Sim.read_statement.
  change (Sim.quoted_after "CREATE DATABASE " ("DROP DATABASE " +:+ dq +:+ n +:+ dq))
    with (@None (option string)).
  cbv iota.
  rewrite (quoted_after_keywords "DROP DATABASE " n Hq). reflexivity.
Qed.

Section Outcomes.
Context {W : Type} `{Collaborators W}.

(** Every run of [createDatabase] whose connection opened. *)
Lemma createDatabase_outcomes (p : Proc W) (w1 : W) :
  pg_connect (client_config (env p) true) (world p) = (Returned tt, w1) ->
  createDatabase p =
  match pg_query (create_sql (env p)) w1 with
  | (Returned _, w2) =>
      finished p [ Connect (client_config (env p) true);
                   Query (create_sql (env p));
                   ConsoleLog ("Database " +:+ database_name (env p) +:+ " created successfully.");
                   ConsoleLog ("Database " +:+ database_name (env p) +:+ " has been created successfully.") ] w2
  | (Thrown e, w2) =>
      if decide (err_code e = Some "42P04") then
        finished p [ Connect (client_config (env p) true);
                     Query (create_sql (env p));
                     ConsoleLog ("Database " +:+ database_name (env p) +:+ " already exists.");
                     ConsoleLog ("Database " +:+ database_name (env p) +:+ " has been created successfully.") ] w2
      else
        finished p [ Connect (client_config (env p) true);
                     Query (create_sql (env p));
                     ConsoleError (Some "Error creating database:") e ] w2
  end.
Proof.
  intros Hc. unfold createDatabase. rewrite (after_connect true _ p w1 Hc).
  unfold create_sql, database_name, finished. run.
  destruct (pg_query _ w1) as [[r | e] w2]; simpl.
  - destruct (pg_end w2) as [[[] | e'] w3]; simpl; rewrite <- !app_assoc; reflexivity.
  - destruct (decide _) as [Heq | Hne]; simpl;
      destruct (pg_end w2) as [[[] | e'] w3]; simpl; rewrite <- !app_assoc; reflexivity.
Qed.

(** Every run of [dropDatabase] whose connection opened. *)
Lemma dropDatabase_outcomes (p : Proc W) (w1 : W) :
  pg_connect (client_config (env p) false) (world p) = (Returned tt, w1) ->
  dropDatabase p =
  match pg_query (drop_sql (env p)) w1 with
  | (Returned _, w2) =>
      finished p [ Connect (client_config (env p) false);
                   Query (drop_sql (env p));
                   ConsoleLog ("Database " +:+ database_name (env p) +:+ " dropped.");
                   ConsoleLog ("Database " +:+ database_name (env p) +:+ " has been dropped successfully.") ] w2
  | (Thrown e, w2) =>
      if decide (err_code e = Some "3D000") then
        finished p [ Connect (client_config (env p) false);
                     Query (drop_sql (env p));
                     ConsoleLog ("Database " +:+ database_name (env p) +:+ " does not exist.");
                     ConsoleLog ("Database " +:+ database_name (env p) +:+ " has been dropped successfully.") ] w2
      else
        finished p [ Connect (client_config (env p) false);
                     Query (drop_sql (env p));
                     ConsoleError (Some "Error dropping database:") e ] w2
  end.
Proof.
  intros Hc. unfold dropDatabase. rewrite (after_connect false _ p w1 Hc).
  unfold drop_sql, database_name, finished. run.
  destruct (pg_query _ w1) as [[r | e] w2]; simpl.
  - destruct (pg_end w2) as [[[] | e'] w3]; simpl; rewrite <- !app_assoc; reflexivity.
  - destruct (decide _) as [Heq | Hne]; simpl;
      destruct (pg_end w2) as [[[] | e'] w3]; simpl; rewrite <- !app_assoc; reflexivity.
Qed.

End Outcomes.

Lemma sim_create (s : Sim.State) (e : gmap string string) :
  quote_free (database_name e) = true ->
  pg_query (create_sql e) s
  = if negb (Sim.createdb s) then
      (Thrown (Sim.db_error "42501" "permission denied to create database"), s)
    else if bool_decide (database_name e ∈ Sim.catalog s)
    then (Thrown (Sim.db_error "42P04" "database already exists"), s)
    else (Returned (mkResult [] []),
          Sim.with_catalog (Sim.catalog s ++ [database_name e]) s).
Proof.
  intros Hq. simpl. unfold Sim.query, create_sql.
  fold (database_name e). rewrite (read_create _ Hq). reflexivity.
Qed.

Lemma sim_drop (s : Sim.State) (e : gmap string string) :
  quote_free (database_name e) = true ->
  pg_query (drop_sql e) s
  = if bool_decide (database_name e ∈ Sim.catalog s) then
      if negb (Sim.createdb s) then
        (Thrown (Sim.db_error "42501" "must be owner of database"), s)
      else if decide (Sim.session s = Some (database_name e)) then
        (Thrown (Sim.db_error "55006" "cannot drop the currently open database"), s)
      else (Returned (mkResult [] []),
            Sim.with_catalog (filter (fun n => n ≠ database_name e) (Sim.catalog s)) s)
    else (Thrown (Sim.no_database (database_name e)), s).
Proof.
  intros Hq. simpl. unfold Sim.query, drop_sql.
  fold (database_name e). rewrite (read_drop _ Hq). reflexivity.
Qed.

(** A connection the server accepts opens a session on the database the
    client asks for. *)
Lemma sim_connect (s : Sim.State) (cfg : ClientConfig) :
  Sim.accepts s cfg = true ->
  pg_connect cfg s
  = (Returned tt, Sim.with_session (Some (Sim.session_database cfg s)) s).
Proof.
  intros Ha. apply andb_true_iff in Ha as [Hauth Hin].
  simpl. unfold Sim.connect. rewrite Hauth, Hin. reflexivity.
Qed.

(** A connection it does not accept throws and leaves the server as it
    was. *)
Lemma sim_connect_refused (s : Sim.State) (cfg : ClientConfig) :
  Sim.accepts s cfg = false -> exists e, pg_connect cfg s = (Thrown e, s).
Proof.
  intros Ha. simpl. unfold Sim.connect. unfold Sim.accepts in Ha.
  destruct (Sim.authenticates s cfg); [| eauto].
  cbn [andb] in Ha. rewrite Ha. cbn [negb]. eauto.
Qed.

(** The server turns down a connection to a database that is not there. *)
Lemma sim_connect_absent (s : Sim.State) (cfg : ClientConfig) :
  Sim.authenticates s cfg = true ->
  Sim.session_database cfg s ∉ Sim.catalog s ->
  pg_connect cfg s = (Thrown (Sim.no_database (Sim.session_database cfg s)), s).
Proof.
  intros Hauth Hout. simpl. unfold Sim.connect.
  rewrite Hauth, (bool_decide_eq_false_2 _ Hout). reflexivity.
Qed.

(** [create-database.ts] passes [POSTGRES_DATABASE] as the database of
    its connection: the session it asks for is on the database it names
    in its statement. *)
Lemma session_of_create (e : gmap string string) (s : Sim.State) (d : string) :
  e !! "POSTGRES_DATABASE" = Some d -> d <> EmptyString ->
  Sim.session_database (client_config e true) s = d /\ database_name e = d.
Proof.
  intros He Hd. unfold Sim.session_database, database_name, client_config.
  cbn [database]. rewrite He. cbn [Js.template].
  destruct d; [contradiction | split; reflexivity].
Qed.

(** [createDatabase] against the simulated store: when its database is
    named in the environment, no run adds a database to the catalogue. *)
Lemma sim_createDatabase (p : Proc Sim.State) (d : string) :
  env p !! "POSTGRES_DATABASE" = Some d -> d <> EmptyString ->
  quote_free d = true ->
  Sim.catalog (world (createDatabase p).2) = Sim.catalog (world p).
Proof.
  intros He Hd Hq.
  destruct (session_of_create (env p) (world p) d He Hd) as [Hsession Hname].
  destruct (Sim.accepts (world p) (client_config (env p) true)) eqn:Ha.
  - rewrite (createDatabase_outcomes p _ (sim_connect _ _ Ha)).
    rewrite sim_create by (rewrite Hname; exact Hq).
    apply andb_true_iff in Ha as [_ Hin]. rewrite Hsession in Hin.
    rewrite Hname. cbn [Sim.catalog Sim.with_session Sim.createdb].
    rewrite Hin.
    destruct (Sim.createdb (world p)); reflexivity.
  - destruct (sim_connect_refused _ _ Ha) as [e Hc].
    unfold createDatabase. rewrite (connect_refused true _ p e (world p) Hc).
    reflexivity.
Qed.

(** One run of [dropDatabase] against the simulated store, its session
    on another database than the one it drops. *)
Lemma sim_dropDatabase (p : Proc Sim.State) :
  Sim.accepts (world p) (client_config (env p) false) = true ->
  Sim.createdb (world p) = true ->
  quote_free (database_name (env p)) = true ->
  Sim.session_database (client_config (env p) false) (world p) <> database_name (env p) ->
  dropDatabase p
  = if bool_decide (database_name (env p) ∈ Sim.catalog (world p))
    then (Returned tt,
          later p [ Connect (client_config (env p) false);
                    Query (drop_sql (env p));
                    ConsoleLog ("Database " +:+ database_name (env p) +:+ " dropped.");
                    ConsoleLog ("Database " +:+ database_name (env p) +:+ " has been dropped successfully.");
                    ClientEnd ]
                (Sim.with_session None
                   (Sim.with_catalog
                      (filter (fun n => n ≠ database_name (env p)) (Sim.catalog (world p)))
                      (world p))))
    else (Returned tt,
          later p [ Connect (client_config (env p) false);
                    Query (drop_sql (env p));
                    ConsoleLog ("Database " +:+ database_name (env p) +:+ " does not exist.");
                    ConsoleLog ("Database " +:+ database_name (env p) +:+ " has been dropped successfully.");
                    ClientEnd ]
                (Sim.with_session None (world p))).
Proof.
  intros Ha Hp Hq Hother.
  rewrite (dropDatabase_outcomes p _ (sim_connect _ _ Ha)).
  rewrite (sim_drop _ _ Hq).
  cbn [Sim.catalog Sim.with_session Sim.createdb Sim.session]. rewrite Hp. cbn [negb].
  destruct (bool_decide _); [| reflexivity].
  destruct (decide _) as [Heq | _]; [| reflexivity].
  exfalso. apply Hother. congruence.
Qed.

(** C2: the claim fails on the code.  What holds: [createDB] takes the
    store's error 42P04 (database already exists) as a success with a
    notice, and [dropDB] does the same with 3D000 (database does not
    exist); and [dropDatabase], whose client names no database and so
    opens its session elsewhere, invoked twice ends both times without
    an error and with the database absent.  But [createDatabase] opens
    its connection to the very database it is to create: when that
    database is not there the server turns the connection down,
    [connect] throws outside the [try], and invoking the operation again
    does the same, so the database is never created.  No run of
    [createDatabase] adds a database the environment names.  And when
    the session of [dropDatabase] is on the database to drop (the user
    bears the name of the database), the server refuses with 55006 and
    the database stays. *)
Theorem create_connects_to_the_database_it_is_to_create :
  (forall (W : Type) (C : Collaborators W) (p : Proc W) (e : JsError) (w2 : W),
      pg_query (create_sql (env p)) (world p) = (Thrown e, w2) ->
      err_code e = Some "42P04" ->
      createDB p
      = (Returned tt,
         later p [ Query (create_sql (env p));
                   ConsoleLog ("Database " +:+ database_name (env p) +:+ " already exists.") ]
               w2))
  /\ (forall (W : Type) (C : Collaborators W) (p : Proc W) (e : JsError) (w2 : W),
         pg_query (drop_sql (env p)) (world p) = (Thrown e, w2) ->
         err_code e = Some "3D000" ->
         dropDB p
         = (Returned tt,
            later p [ Query (drop_sql (env p));
                      ConsoleLog ("Database " +:+ database_name (env p) +:+ " does not exist.") ]
                  w2))
  /\ (forall (p : Proc Sim.State) (d : string),
         env p !! "POSTGRES_DATABASE" = Some d -> d <> EmptyString ->
         Sim.authenticates (world p) (client_config (env p) true) = true ->
         d ∉ Sim.catalog (world p) ->
         create_never_settles p)
  /\ (forall (p : Proc Sim.State) (d : string),
         env p !! "POSTGRES_DATABASE" = Some d -> d <> EmptyString ->
         quote_free d = true ->
         Sim.catalog (world (createDatabase p).2) = Sim.catalog (world p))
  /\ (forall p : Proc Sim.State,
         Sim.accepts (world p) (client_config (env p) false) = true ->
         Sim.createdb (world p) = true ->
         quote_free (database_name (env p)) = true ->
         Sim.session_database (client_config (env p) false) (world p)
         <> database_name (env p) ->
         drop_twice_settles p)
  /\ (forall p : Proc Sim.State,
         Sim.accepts (world p) (client_config (env p) false) = true ->
         Sim.createdb (world p) = true ->
         quote_free (database_name (env p)) = true ->
         Sim.session_database (client_config (env p) false) (world p)
         = database_name (env p) ->
         dropDatabase p
         = (Returned tt,
            later p [ Connect (client_config (env p) false);
                      Query (drop_sql (env p));
                      ConsoleError (Some "Error dropping database:")
                        (Sim.db_error "55006" "cannot drop the currently open database");
                      ClientEnd ]
                  (Sim.with_session None (world p)))).
Proof.
  split; [| split; [| split; [| split; [| split]]]].
  - intros W C p e w2 Hq Hcode. unfold create_sql, database_name in *.
    run. rewrite Hq. destruct (decide _) as [_ | Hne]; [| contradiction].
    simpl. rewrite <- app_assoc. reflexivity.
  - intros W C p e w2 Hq Hcode. unfold drop_sql, database_name in *.
    run. rewrite Hq. destruct (decide _) as [_ | Hne]; [| contradiction].
    simpl. rewrite <- app_assoc. reflexivity.
  - intros p d He Hd Hauth Hout.
    destruct (session_of_create (env p) (world p) d He Hd) as [Hsession Hname].
    assert (Hc : pg_connect (client_config (env p) true) (world p)
                 = (Thrown (Sim.no_database (database_name (env p))), world p)).
    { rewrite Hname, <- Hsession. apply sim_connect_absent; [exact Hauth |].
      rewrite Hsession. exact Hout. }
    assert (Hrun : forall q, env q = env p -> world q = world p ->
              createDatabase q
              = (Thrown (Sim.no_database (database_name (env p))),
                 later q [Connect (client_config (env p) true)] (world p))).
    { intros q Hqe Hqw. unfold createDatabase. rewrite <- Hqe.
      apply connect_refused. rewrite Hqe, Hqw. exact Hc. }
    unfold create_never_settles. cbv zeta.
    rewrite (Hrun p eq_refl eq_refl). cbn [fst snd].
    rewrite (Hrun (later p _ _) eq_refl eq_refl).
    cbn [fst snd later world trace env]. rewrite <- app_assoc. rewrite Hname.
    repeat split. exact Hout.
  - intros p d He Hd Hq. exact (sim_createDatabase p d He Hd Hq).
  - intros p Ha Hp Hq Hother. unfold drop_twice_settles. cbv zeta.
    rewrite (sim_dropDatabase p Ha Hp Hq Hother).
    apply andb_true_iff in Ha as [Hauth Hin]. apply bool_decide_eq_true in Hin.
    destruct (bool_decide _) eqn:Hdb; cbn [fst snd].
    + assert (Hout : database_name (env p)
                     ∉ filter (fun n => n ≠ database_name (env p)) (Sim.catalog (world p))).
      { intros Hf. apply list_elem_of_filter in Hf as [Hf _]. apply Hf. reflexivity. }
      rewrite sim_dropDatabase; cbn [world env later Sim.catalog Sim.with_catalog
                                     Sim.with_session Sim.createdb];
        [ rewrite (bool_decide_eq_false_2 _ Hout); auto
        | apply andb_true_iff; split;
          [ exact Hauth
          | apply bool_decide_eq_true, list_elem_of_filter; split;
            [ exact Hother | exact Hin ] ]
        | exact Hp | exact Hq | exact Hother ].
    + rewrite sim_dropDatabase; cbn [world env later Sim.catalog Sim.with_session
                                     Sim.createdb];
        [ rewrite Hdb; apply bool_decide_eq_false in Hdb; auto
        | apply andb_true_iff; split; [exact Hauth | apply bool_decide_eq_true; exact Hin]
        | exact Hp | exact Hq | exact Hother ].
  - intros p Ha Hp Hq Hsame.
    rewrite (dropDatabase_outcomes p _ (sim_connect _ _ Ha)).
    rewrite (sim_drop _ _ Hq).
    apply andb_true_iff in Ha as [Hauth Hin]. rewrite Hsame in Hin.
    cbn [Sim.catalog Sim.with_session Sim.createdb Sim.session].
    rewrite Hin, Hp, Hsame. cbn [negb].
    destruct (decide _) as [_ | Hne]; [| contradiction].
    reflexivity.
Qed.

Lemma create_connects_to_the_database_it_is_to_create_witness :
  create_never_settles (Demo.start (Demo.flags "1") Demo.pristine)
  /\ Sim.catalog (world (createDatabase (Demo.start (Demo.flags "1") Demo.pristine)).2)
     = ["postgres"]
  /\ drop_twice_settles (Demo.start (Demo.as_admin (Demo.flags "1")) Demo.server).
Proof.
  split; [| split].
  - apply (proj1 (proj2 (proj2 create_connects_to_the_database_it_is_to_create))
             (Demo.start (Demo.flags "1") Demo.pristine) "app").
    + reflexivity.
    + discriminate.
    + reflexivity.
    + apply (bool_decide_unpack _). vm_compute. exact I.
  - apply (proj1 (proj2 (proj2 (proj2 create_connects_to_the_database_it_is_to_create)))
             (Demo.start (Demo.flags "1") Demo.pristine) "app").
    + reflexivity.
    + discriminate.
    + reflexivity.
  - apply (proj1 (proj2 (proj2 (proj2 (proj2
             create_connects_to_the_database_it_is_to_create))))).
    + reflexivity.
    + reflexivity.
    + vm_compute. reflexivity.
    + vm_compute. discriminate.
Defined.

(** * Truncation and hashing, whatever the collaborators do *)

Section Truncation.
Context {W : Type} `{Collaborators W}.

Lemma truncateTables_outcomes (p : Proc W) :
  truncateTables p =
  match pg_query select_tables_sql (world p) with
  | (Thrown e, w1) => (Thrown e, later p [Query select_tables_sql] w1)
  | (Returned result, w1) =>
      match rows result with
      | [] => (Returned tt, later p [Query select_tables_sql] w1)
      | _ :: _ =>
          match pg_query (truncate_all_sql result) w1 with
          | (Thrown e, w2) =>
              (Thrown e, later p [Query select_tables_sql; Query (truncate_all_sql result)] w2)
          | (Returned _, w2) =>
              (Returned tt,
               later p [ Query select_tables_sql;
                         Query (truncate_all_sql result);
                         ConsoleLog "All tables have been truncated successfully." ] w2)
          end
      end
  end.
Proof.
  unfold truncateTables, truncate_all_sql, query, console_log, emit, call, later,
    mbind, script_bind, mret, script_ret.
  cbn [env dirname trace world].
  destruct (pg_query select_tables_sql (world p)) as [[result | e] w1]; [| reflexivity].
  destruct (rows result) as [| row more] eqn:Hrows.
  - destruct (decide _) as [Hlt | _]; [simpl in Hlt; lia | reflexivity].
  - destruct (decide _) as [_ | Hge]; [| simpl in Hge; lia].
    cbn [env dirname trace world].
    destruct (pg_query _ w1) as [[r | e] w2]; cbn [env dirname trace world];
      rewrite <- ?app_assoc; reflexivity.
Qed.

Lemma truncateTables_no_insert : emits no_insert truncateTables.
Proof. unfold truncateTables. emits_auto; reflexivity. Qed.

(** Every run of [seed] whose connection opened. *)
Lemma seed_outcomes (p : Proc W) (w1 : W) :
  pg_connect (client_config (env p) true) (world p) = (Returned tt, w1) ->
  seed p =
  match (truncateTables;; seedUsers) (connected p true w1) with
  | (Returned _, p2) => finished p2 [] (world p2)
  | (Thrown e, p2) =>
      finished p2 [ConsoleError (Some "Error seeding database:") e] (world p2)
  end.
Proof.
  intros Hc. unfold seed. rewrite (after_connect true _ p w1 Hc).
  unfold try_finally, try_catch.
  destruct ((truncateTables;; seedUsers) (connected p true w1)) as [[[] | e] p2].
  - unfold finished, later, client_end, emit, call, mbind, script_bind. simpl.
    destruct (pg_end (world p2)) as [[[] | e'] w3]; reflexivity.
  - unfold finished, later, client_end, console_error, emit, call, mbind, script_bind. simpl.
    destruct (pg_end (world p2)) as [[[] | e'] w3]; simpl; rewrite <- !app_assoc; reflexivity.
Qed.

End Truncation.

Section Hashing.
Context {W : Type} `{Collaborators W}.

Ltac leaf :=
  split;
  [ intros ? ?; discriminate
  | intros ? ?;
    match goal with
    | Heq : _ = Execute _ _ |- _ =>
        first
          [ discriminate Heq
          | injection Heq; intros; subst;
            first
              [ reflexivity
              | match goal with
                | Hs : _ = insert_user_sql |- _ =>
                    unfold insert_user_sql, insert_role_sql, insert_user_role_sql in Hs;
                    discriminate Hs
                end ] ]
    end ].

Lemma seed_each_carries (h : string) (acc : list Value) (roster : list SeedUser) :
  emits (fun ev => no_hashing ev /\ carries h ev) (seed_each h acc roster).
Proof.
  revert acc. induction roster as [| u roster IH]; intros acc; simpl.
  - apply emits_ret.
  - emits_auto; try leaf. apply IH.
Qed.

Lemma seedUsers_of_hash (roster : list SeedUser) (p : Proc W) :
  seedUsers_of roster p =
  match scrypt "Password123$" (world p) with
  | (Returned h, w) =>
      (seed_each h [] roster;; console_log "Users have been seeded successfully.")
        (later p [ScryptHash "Password123$"] w)
  | (Thrown e, w) => (Thrown e, later p [ScryptHash "Password123$"] w)
  end.
Proof.
  unfold seedUsers_of, scryptHash, later, mbind, script_bind, emit, call.
  cbn [env dirname trace world].
  destruct (scrypt "Password123$" (world p)) as [[h | e] w]; reflexivity.
Qed.

Lemma seedUsers_hashes_once (roster : list SeedUser) (p : Proc W) :
  exists evs,
    trace (seedUsers_of roster p).2 = trace p ++ ScryptHash "Password123$" :: evs
    /\ Forall no_hashing evs
    /\ match scrypt "Password123$" (world p) with
       | (Returned h, _) => Forall (carries h) evs
       | (Thrown _, _) => evs = []
       end.
Proof.
  rewrite seedUsers_of_hash.
  destruct (scrypt "Password123$" (world p)) as [[h | e] w].
  - assert (Hrest : emits (fun ev => no_hashing ev /\ carries h ev)
                      (seed_each h [] roster;;
                       console_log "Users have been seeded successfully.")).
    { emits_step; [apply seed_each_carries |]. emits_auto. leaf. }
    destruct (Hrest (later p [ScryptHash "Password123$"] w)) as (evs & Ht & Hf & _).
    exists evs. rewrite Ht. cbn [later trace]. rewrite <- app_assoc.
    split; [reflexivity |].
    split; eapply Forall_impl; try exact Hf; intros ev [Hn Hc]; assumption.
  - exists []. cbn [snd later trace]. auto.
Qed.

End Hashing.

(** * The truncation statement *)

Lemma append_assoc (a b c : string) : (a +:+ b) +:+ c = a +:+ b +:+ c.
Proof.
  induction a as [| x a IH]; [reflexivity |].
  change (String x ((a +:+ b) +:+ c) = String x (a +:+ b +:+ c)).
  rewrite IH. reflexivity.
Qed.

Lemma length_append (a b : string) :
  String.length (a +:+ b) = (String.length a + String.length b)%nat.
Proof.
  induction a as [| x a IH]; [reflexivity |].
  change (S (String.length (a +:+ b)) = S (String.length a + String.length b)).
  rewrite IH. reflexivity.
Qed.

Lemma clause_then (n rest : string) :
  truncate_clause n +:+ rest
  = ("TRUNCATE TABLE " +:+ dq) +:+ n +:+ dq +:+ " RESTART IDENTITY CASCADE" +:+ rest.
Proof. unfold truncate_clause. rewrite !append_assoc. reflexivity. Qed.

Lemma append_empty (a : string) : a +:+ EmptyString = a.
Proof.
  induction a as [| x a IH]; [reflexivity |].
  change (String x (a +:+ EmptyString) = String x a).
  rewrite IH. reflexivity.
Qed.

(** The clauses joined by [; ] are read back as the names they were built
    from. *)
Lemma read_truncates_joined (names : list string) (fuel : nat) :
  names <> [] ->
  Forall (fun n => quote_free n = true) names ->
  (length names <= fuel)%nat ->
  Sim.read_truncates fuel (String.concat "; " (truncate_clause <$> names)) = Some names.
Proof.
  revert fuel. induction names as [| n names IH]; intros fuel Hne Hq Hfuel;
    [contradiction |].
  apply Forall_cons in Hq as [Hn Hq].
  destruct fuel as [| fuel]; [cbn in Hfuel; lia |].
  destruct names as [| n2 names].
  - cbn [fmap list_fmap String.concat Sim.read_truncates].
    rewrite <- (append_empty (truncate_clause n)), clause_then.
    rewrite strip_app, (read_ident_quoted n _ Hn), strip_app. reflexivity.
  - change (String.concat "; " (truncate_clause <$> n :: n2 :: names))
      with (truncate_clause n +:+ "; " +:+ String.concat "; " (truncate_clause <$> n2 :: names)).
    cbn [Sim.read_truncates].
    rewrite clause_then, strip_app, (read_ident_quoted n _ Hn), strip_app.
    change (Sim.strip "; " ("; " +:+ String.concat "; " (truncate_clause <$> n2 :: names)))
      with (Some (String.concat "; " (truncate_clause <$> n2 :: names))).
    cbn iota beta.
    rewrite (IH fuel); [reflexivity | discriminate | exact Hq | cbn in *; lia].
Qed.

Lemma joined_head (names : list string) :
  names <> [] ->
  exists rest, String.concat "; " (truncate_clause <$> names) = "TRUNCATE TABLE " +:+ rest.
Proof.
  destruct names as [| n [| n2 names]]; intros Hne; [contradiction | |].
  - eexists. reflexivity.
  - change (String.concat "; " (truncate_clause <$> n :: n2 :: names))
      with (truncate_clause n +:+ "; " +:+ String.concat "; " (truncate_clause <$> n2 :: names)).
    unfold truncate_clause. rewrite append_assoc. eexists. reflexivity.
Qed.

Lemma joined_length (names : list string) :
  (length names <= String.length (String.concat "; " (truncate_clause <$> names)))%nat.
Proof.
  induction names as [| n [| n2 names] IH]; [cbn; lia | |].
  - cbn [fmap list_fmap String.concat length]. unfold truncate_clause.
    rewrite length_append. cbn. lia.
  - change (String.concat "; " (truncate_clause <$> n :: n2 :: names))
      with (truncate_clause n +:+ "; " +:+ String.concat "; " (truncate_clause <$> n2 :: names)).
    unfold truncate_clause at 1. rewrite !length_append.
    cbn [length] in *. cbn [String.length]. lia.
Qed.

(** The statement built for a list of names is read by the store as the
    truncation of exactly those tables, in that order. *)
Lemma read_joined (names : list string) :
  names <> [] ->
  Forall (fun n => quote_free n = true) names ->
  Sim.read_statement (String.concat "; " (truncate_clause <$> names)) = Sim.Truncate names.
Proof.
  intros Hne Hq.
  destruct (joined_head names Hne) as [rest Hhead].
  pose proof (read_truncates_joined names _ Hne Hq (joined_length names)) as Hread.
  set (sql := String.concat "; " (truncate_clause <$> names)) in *.
  assert (H2 : Sim.quoted_after "CREATE DATABASE " sql = None) by (rewrite Hhead; reflexivity).
  assert (H3 : Sim.quoted_after "DROP DATABASE " sql = None) by (rewrite Hhead; reflexivity).
  assert (H4 : Sim.strip "TRUNCATE TABLE " sql = Some rest)
    by (rewrite Hhead; apply strip_app).
  unfold Sim.read_statement.
  rewrite H2, H3, H4, Hread. reflexivity.
Qed.

Lemma truncate_named_all (names : list string) (tables : list (string * Sim.Table)) :
  Forall (fun t => t.1 ∈ names) tables ->
  Sim.truncate_named names tables = emptied tables.
Proof.
  unfold Sim.truncate_named, emptied.
  induction tables as [| [n tb] tables IH]; intros Hall; [reflexivity |].
  apply Forall_cons in Hall as [Hn Hall]. cbn [fst] in Hn.
  cbn [fmap list_fmap map]. rewrite (bool_decide_eq_true_2 _ Hn).
  f_equal. apply IH, Hall.
Qed.

Lemma clauses_of_rows (tables : list (string * Sim.Table)) :
  truncate_sql
    <$> ((fun row => prop row "table_name")
           <$> map (fun t => [("table_name", VString t.1)]) tables)
  = truncate_clause <$> (fst <$> tables).
Proof.
  induction tables as [| t tables IH]; [reflexivity |].
  cbn [map fmap list_fmap]. cbn [map fmap list_fmap] in IH. rewrite IH. reflexivity.
Qed.

(** The store knows the enumeration of the seed script by its words. *)
Lemma read_select : Sim.read_statement select_tables_sql = Sim.SelectBaseTables.
Proof. vm_compute. reflexivity. Qed.

Lemma sim_enumeration (s : Sim.State) :
  pg_query select_tables_sql s
  = (Returned (mkResult (map (fun t => [("table_name", VString t.1)]) (Sim.tables s))
                        ["table_name"]), s).
Proof.
  cbn [pg_query Sim.collaborators]. unfold Sim.query. rewrite read_select. reflexivity.
Qed.

(** One run of [truncateTables] against the simulated store. *)
Lemma sim_truncateTables (p : Proc Sim.State) :
  Forall (fun t => quote_free t.1 = true) (Sim.tables (world p)) ->
  truncateTables p
  = (Returned tt,
     later p (truncation_events (Sim.tables (world p)))
           (Sim.with_tables (emptied (Sim.tables (world p))) (world p))).
Proof.
  intros Hq. rewrite truncateTables_outcomes.
  rewrite sim_enumeration.
  cbn iota beta. cbn [rows].
  destruct (Sim.tables (world p)) as [| t tables] eqn:Htables.
  - cbn [map truncation_events emptied]. rewrite <- Htables.
    destruct p as [e d tr w]. destruct w. reflexivity.
  - cbn [map]. unfold truncate_all_sql. cbn [rows].
    change ((fun row => prop row "table_name")
              <$> ([("table_name", VString t.1)]
                     :: map (fun t0 => [("table_name", VString t0.1)]) tables))
      with ((fun row => prop row "table_name")
              <$> map (fun t0 => [("table_name", VString t0.1)]) (t :: tables)).
    rewrite clauses_of_rows.
    assert (Hread : Sim.read_statement
                      (String.concat "; " (truncate_clause <$> (fst <$> t :: tables)))
                    = Sim.Truncate (fst <$> t :: tables)).
    { apply read_joined; [discriminate |].
      apply Forall_fmap. exact Hq. }
    cbn [pg_query Sim.collaborators]. unfold Sim.query. rewrite Hread.
    assert (Hhas : forallb (fun n => Sim.has_table n (world p)) (fst <$> t :: tables) = true).
    { apply forallb_forall. intros n Hn. unfold Sim.has_table.
      apply bool_decide_eq_true_2. rewrite Htables. apply list_elem_of_In. exact Hn. }
    rewrite Hhas, Htables.
    rewrite truncate_named_all.
    + reflexivity.
    + apply Forall_forall. intros x Hx. apply list_elem_of_fmap. exists x. auto.
Qed.

(** * Truncation comes first *)

Lemma prefix_before_first {A} (P : A -> Prop) (l1 l2 pre post : list A) (x : A) :
  Forall (fun y => ~ P y) l1 -> P x -> l1 ++ l2 = pre ++ x :: post ->
  exists mid, pre = l1 ++ mid.
Proof.
  revert pre. induction l1 as [| a l1 IH]; intros pre Hall Hx Heq.
  - exists pre. reflexivity.
  - apply Forall_cons in Hall as [Ha Hall].
    destruct pre as [| b pre]; cbn in Heq; injection Heq as Hhead Htail.
    + subst a. contradiction.
    + subst b. destruct (IH pre Hall Hx Htail) as [mid ->]. exists mid. reflexivity.
Qed.

Lemma no_insert_holds_no_execute (l pre post : list Event) (ev : Event) :
  Forall no_insert l -> l = pre ++ ev :: post -> is_execute ev = true -> False.
Proof.
  intros Hall -> Hev. apply Forall_app in Hall as [_ Hall].
  apply Forall_cons in Hall as [Hno _]. unfold no_insert in Hno. congruence.
Qed.

Section Order.
Context {W : Type} `{Collaborators W}.

(** [seed] once its connection is open: the truncation, and [seedUsers]
    only when the truncation returned. *)
Lemma seed_after_truncation (p : Proc W) (w1 : W) :
  pg_connect (client_config (env p) true) (world p) = (Returned tt, w1) ->
  seed p =
  match truncateTables (connected p true w1) with
  | (Thrown e, p1) =>
      finished p1 [ConsoleError (Some "Error seeding database:") e] (world p1)
  | (Returned _, p1) =>
      match seedUsers p1 with
      | (Returned _, p2) => finished p2 [] (world p2)
      | (Thrown e, p2) =>
          finished p2 [ConsoleError (Some "Error seeding database:") e] (world p2)
      end
  end.
Proof.
  intros Hc. rewrite (seed_outcomes p w1 Hc).
  unfold mbind at 1, script_bind at 1.
  destruct (truncateTables (connected p true w1)) as [[[] | e] p1]; reflexivity.
Qed.

(** What [finished] leaves in the trace. *)
Lemma finished_trace (q : Proc W) (events : list Event) (w : W) :
  trace (finished q events w).2 = trace q ++ events ++ [ClientEnd].
Proof. reflexivity. Qed.

(** A truncation that returned went through. *)
Lemma returned_truncation (q p1 : Proc W) (u : unit) :
  truncateTables q = (Returned u, p1) -> truncated q p1.
Proof.
  intros Ht. rewrite truncateTables_outcomes in Ht. unfold truncated.
  destruct (pg_query select_tables_sql (world q)) as [[result | e] w1];
    [| discriminate Ht].
  exists result, w1. split; [reflexivity |].
  destruct (rows result) as [| row more].
  - left. split; [reflexivity |]. congruence.
  - right. split; [discriminate |].
    destruct (pg_query (truncate_all_sql result) w1) as [[r | e] w2];
      [| discriminate Ht].
    exists r, w2. split; [reflexivity |]. congruence.
Qed.

(** The loop starts with the insert of its first user. *)
Lemma seed_each_starts (h : string) (acc : list Value) (u : SeedUser)
    (rest : list SeedUser) (k : Script W unit) (q : Proc W) :
  emits (fun _ => True) k ->
  exists evs,
    trace ((seed_each h acc (u :: rest);; k) q).2 = trace q ++ user_insert u h :: evs.
Proof.
  intros Hk.
  assert (Hloop : forall a r, emits (fun _ => True) (seed_each h a r)).
  { intros a r. revert a. induction r as [| u' r IH]; intros a; cbn [seed_each].
    - apply emits_ret.
    - emits_auto; try exact I. apply IH. }
  cbn [seed_each]. unfold execute.
  set (body := fun userResult : list QueryResult => _).
  assert (Hrest : emits (fun _ => True)
                    ((call (pg_execute insert_user_sql
                              [VString (username u); VString (email u); VString h])
                        ≫= body);; k)).
  { subst body. emits_auto; try exact I; try apply Hloop; try apply Hk. }
  destruct (Hrest (later q [user_insert u h] (world q))) as (evs & Ht & _).
  exists evs. cbn [later trace] in Ht. rewrite <- app_assoc in Ht. cbn [app] in Ht.
  rewrite <- Ht. unfold mbind, script_bind, emit, later, user_insert.
  cbn [env dirname trace world]. reflexivity.
Qed.

End Order.

(** C4. In every run of [seed] whose connection opened, an insert (a call
    of [connection.execute], which is how the script inserts users, roles
    and user-roles) comes only after the truncation has returned: the
    base tables were enumerated and, when there are any, the one
    statement that truncates each of them ([RESTART IDENTITY CASCADE])
    was accepted by the store, and all of that precedes the insert in
    the trace.  When the truncation throws, [seed] logs the error and
    ends: its run holds no insert.  When it returns and the password is
    hashed, the next thing [seed] does is the insert of its first user.
    On the simulated store the truncation leaves every base table
    without a row and with its sequence restarted. *)
Theorem truncation_precedes_every_insert :
  (forall (W : Type) (C : Collaborators W) (p : Proc W) (w1 : W),
      pg_connect (client_config (env p) true) (world p) = (Returned tt, w1) ->
      (forall pre ev post,
          trace (seed p).2 = trace p ++ pre ++ ev :: post ->
          is_execute ev = true ->
          exists p1 mid,
            truncateTables (connected p true w1) = (Returned tt, p1)
            /\ truncated (connected p true w1) p1
            /\ trace p ++ pre = trace p1 ++ mid)
      /\ (forall e p1,
             truncateTables (connected p true w1) = (Thrown e, p1) ->
             seed p
             = finished p1 [ConsoleError (Some "Error seeding database:") e] (world p1)
             /\ exists evs, trace (seed p).2 = trace p ++ evs /\ Forall no_insert evs)
      /\ (forall p1 h w2,
             truncateTables (connected p true w1) = (Returned tt, p1) ->
             scrypt "Password123$" (world p1) = (Returned h, w2) ->
             exists evs,
               trace (seed p).2
               = trace p1 ++ ScryptHash "Password123$"
                   :: user_insert (mkUser "basic" "basic@example.com") h :: evs))
  /\ (forall p : Proc Sim.State,
         Forall (fun t => quote_free t.1 = true) (Sim.tables (world p)) ->
         (truncateTables p).1 = Returned tt
         /\ Sim.tables (world (truncateTables p).2) = emptied (Sim.tables (world p))).
Proof.
  split.
  { intros W C p w1 Hc.
    pose proof (seed_after_truncation p w1 Hc) as Hseed.
    destruct (truncateTables_no_insert (connected p true w1)) as (evs_t & Htr & Hno & _).
    split; [| split].
    - intros pre ev post Htrace Hev.
      destruct (truncateTables (connected p true w1)) as [[[] | e] p1] eqn:Ht;
        cbn [snd] in Htr.
      + destruct (seedUsers_inner users p1) as (evs_s & Hs & _).
        fold (@seedUsers W _) in Hs.
        assert (Hall : exists tail,
                   trace (seed p).2 = trace p ++ (Connect (client_config (env p) true) :: evs_t)
                                      ++ tail).
        { rewrite Hseed.
          destruct (seedUsers p1) as [[[] | e] p2]; cbn [snd] in Hs;
            rewrite finished_trace, Hs, Htr; unfold connected; cbn [trace];
            rewrite <- !app_assoc; eexists; reflexivity. }
        destruct Hall as [tail Hall]. rewrite Hall in Htrace.
        apply app_inv_head in Htrace.
        assert (Hbefore : Forall (fun x => ~ is_execute x = true)
                            (Connect (client_config (env p) true) :: evs_t)).
        { constructor; [intros Hd; discriminate Hd |].
          eapply Forall_impl; [exact Hno |].
          intros x Hx. unfold no_insert in Hx. congruence. }
        destruct (prefix_before_first (fun x => is_execute x = true) _ _ _ _ _
                    Hbefore Hev Htrace) as [mid ->].
        exists p1, mid. split; [reflexivity |].
        split; [apply (returned_truncation _ _ tt Ht) |].
        rewrite Htr. unfold connected. cbn [trace]. rewrite <- !app_assoc. reflexivity.
      + exfalso. rewrite Hseed, finished_trace, Htr in Htrace.
        unfold connected in Htrace. cbn [trace] in Htrace.
        rewrite <- !app_assoc in Htrace. apply app_inv_head in Htrace.
        eapply (no_insert_holds_no_execute _ pre post ev); [| exact Htrace | exact Hev].
        apply Forall_app. split; [repeat constructor |].
        apply Forall_app. split; [exact Hno | repeat constructor].
    - intros e p1 Ht. rewrite Ht in Hseed, Htr. cbn [snd] in Htr.
      split; [exact Hseed |].
      exists (Connect (client_config (env p) true) :: evs_t
              ++ [ConsoleError (Some "Error seeding database:") e; ClientEnd]).
      split.
      + rewrite Hseed, finished_trace, Htr. unfold connected. cbn [trace].
        rewrite <- !app_assoc. reflexivity.
      + constructor; [reflexivity |].
        apply Forall_app. split; [exact Hno | repeat constructor].
    - intros p1 h w2 Ht Hh. rewrite Ht in Hseed.
      unfold seedUsers in Hseed. rewrite seedUsers_of_hash, Hh in Hseed.
      destruct (seed_each_starts h [] (mkUser "basic" "basic@example.com")
                  [mkUser "moderator" "moderator@example.com";
                   mkUser "admin" "admin@example.com"]
                  (console_log "Users have been seeded successfully.")
                  (later p1 [ScryptHash "Password123$"] w2)
                  ltac:(apply emits_emit; exact I)) as (evs & Hevs).
      fold users in Hevs. rewrite Hseed.
      destruct ((seed_each h [] users;;
                 console_log "Users have been seeded successfully.")
                  (later p1 [ScryptHash "Password123$"] w2)) as [[[] | e] p2];
        cbn [snd] in Hevs; rewrite finished_trace, Hevs; cbn [later trace];
        rewrite <- !app_assoc; eexists; reflexivity. }
  intros p Hq. rewrite (sim_truncateTables p Hq). split; reflexivity.
Qed.

Lemma truncation_precedes_every_insert_witness :
  (exists evs,
      trace (seed (Demo.start (Demo.flags "1") Demo.server)).2
      = trace (truncateTables
                 (connected (Demo.start (Demo.flags "1") Demo.server) true
                    (Sim.with_session (Some "app") Demo.server))).2
        ++ ScryptHash "Password123$"
           :: user_insert (mkUser "basic" "basic@example.com") "scrypt:7:Password123$"
           :: evs)
  /\ (exists evs,
         trace (seed (Demo.start (Demo.flags "1") Demo.quirky)).2 = evs
         /\ Forall no_insert evs)
  /\ Sim.tables (world (truncateTables (Demo.start (Demo.flags "1") Demo.server)).2)
     = [ ("users", empty_table); ("tasks", empty_table); ("schemaversion", empty_table) ].
Proof.
  pose proof (proj1 truncation_precedes_every_insert Sim.State Sim.collaborators
                (Demo.start (Demo.flags "1") Demo.server)
                (Sim.with_session (Some "app") Demo.server) eq_refl)
    as (_ & _ & Hreturned).
  pose proof (proj1 truncation_precedes_every_insert Sim.State Sim.collaborators
                (Demo.start (Demo.flags "1") Demo.quirky)
                (Sim.with_session (Some "app") Demo.quirky) eq_refl)
    as (_ & Hthrown & _).
  split; [| split].
  - apply (Hreturned _ "scrypt:7:Password123$"
             (Sim.with_salt 8
                (world (truncateTables
                          (connected (Demo.start (Demo.flags "1") Demo.server) true
                             (Sim.with_session (Some "app") Demo.server))).2))).
    + vm_compute. reflexivity.
    + vm_compute. reflexivity.
  - apply (Hthrown (Sim.db_error "42601" "syntax error")
             (truncateTables (connected (Demo.start (Demo.flags "1") Demo.quirky) true
                                (Sim.with_session (Some "app") Demo.quirky))).2).
    vm_compute. reflexivity.
  - rewrite (proj2 (proj2 truncation_precedes_every_insert
                      (Demo.start (Demo.flags "1") Demo.server)
                      ltac:(repeat constructor))).
    reflexivity.
Defined.

(** * Seeding against the simulated store *)

Lemma emptied_has_no_row (name : string) (tables : list (string * Sim.Table)) :
  match Sim.table_named name (emptied tables) with
  | Some tb => tb = empty_table
  | None => True
  end.
Proof.
  induction tables as [| [n tb] tables IH]; [exact I |].
  cbn [emptied map fst Sim.table_named]. fold (emptied tables).
  destruct (decide (n = name)); [reflexivity | exact IH].
Qed.

Lemma emptied_keeps_the_table (name : string) (tables : list (string * Sim.Table))
    (tb : Sim.Table) :
  Sim.table_named name tables = Some tb ->
  Sim.table_named name (emptied tables) = Some empty_table.
Proof.
  induction tables as [| [n tb0] tables IH]; [discriminate |].
  cbn [emptied map fst Sim.table_named]. fold (emptied tables).
  destruct (decide (n = name)); [reflexivity | exact IH].
Qed.

Lemma emptied_rows (name : string) (tables : list (string * Sim.Table)) (s : Sim.State) :
  Sim.rows_of name (Sim.with_tables (emptied tables) s) = [].
Proof.
  unfold Sim.rows_of. cbn [Sim.tables Sim.with_tables].
  pose proof (emptied_has_no_row name tables) as Hrow.
  destruct (Sim.table_named name (emptied tables)) as [tb |]; [| reflexivity].
  subst tb. reflexivity.
Qed.

Lemma truncation_holds_no_insert (tables : list (string * Sim.Table)) :
  inserts (truncation_events tables) = [].
Proof. destruct tables; reflexivity. Qed.

(** One run of [seed] against the simulated store. *)
Lemma sim_seed (p : Proc Sim.State) :
  Sim.accepts (world p) (client_config (env p) true) = true ->
  Forall (fun t => quote_free t.1 = true) (Sim.tables (world p)) ->
  seed p
  = (Returned tt,
     later p
       (seed_events (client_config (env p) true) (Sim.tables (world p))
          (Sim.kdf (world p) (Sim.salt (world p)) "Password123$"))
       (Sim.with_session None
          (Sim.with_salt (Sim.salt (world p) + 1)%N
             (Sim.with_tables (emptied (Sim.tables (world p))) (world p))))).
Proof.
  intros Ha Hq.
  rewrite (seed_after_truncation p _ (sim_connect _ _ Ha)).
  rewrite sim_truncateTables by exact Hq.
  unfold seedUsers. rewrite seedUsers_of_hash.
  cbn [scrypt Sim.collaborators Sim.hash later world connected].
  cbn [seed_each users]. unfold seed_events, finished, later, connected, execute,
    emit, call, mbind, script_bind, user_insert, first_user, not_a_function.
  cbn [env dirname trace world pg_execute pg_end Sim.collaborators Sim.execute Sim.close
       fst snd username email].
  rewrite <- !app_assoc. reflexivity.
Qed.

(** C3: the claim fails on the code.  The loop of [seedUsers] is written
    to build the hierarchy, but it inserts through [connection.execute],
    which the client of [pg] does not have.  Whenever the insert of the
    first user throws, [seed] logs that error and ends the connection:
    the truncation and the hashing are all it did.  On the simulated
    store, which holds the client of [pg], that is every run: the run
    returns having emptied every table and stored no user, no role and
    no association, so [basic], [moderator] and [admin] hold no role at
    all. *)
Theorem seed_stops_at_its_first_insert :
  (forall (W : Type) (C : Collaborators W) (p p1 : Proc W) (w1 w2 w3 : W)
          (h : string) (e : JsError),
      pg_connect (client_config (env p) true) (world p) = (Returned tt, w1) ->
      truncateTables (connected p true w1) = (Returned tt, p1) ->
      scrypt "Password123$" (world p1) = (Returned h, w2) ->
      pg_execute insert_user_sql
        [VString "basic"; VString "basic@example.com"; VString h] w2
      = (Thrown e, w3) ->
      seed p
      = finished (later p1 [ScryptHash "Password123$"; user_insert first_user h] w3)
          [ConsoleError (Some "Error seeding database:") e] w3)
  /\ (forall p : Proc Sim.State,
         Sim.accepts (world p) (client_config (env p) true) = true ->
         Forall (fun t => quote_free t.1 = true) (Sim.tables (world p)) ->
         let after := world (seed p).2 in
         (seed p).1 = Returned tt
         /\ trace (seed p).2
            = trace p
              ++ seed_events (client_config (env p) true) (Sim.tables (world p))
                   (Sim.kdf (world p) (Sim.salt (world p)) "Password123$")
         /\ Sim.tables after = emptied (Sim.tables (world p))
         /\ (forall table, Sim.rows_of table after = [])
         /\ columns "users" "username" "id" after = []
         /\ columns "roles" "name" "id" after = []
         /\ (forall user_id, roles_held user_id after = [])).
Proof.
  split.
  - intros W C p p1 w1 w2 w3 h e Hc Ht Hh Hx.
    rewrite (seed_after_truncation p w1 Hc), Ht.
    unfold seedUsers. rewrite seedUsers_of_hash, Hh.
    cbn [seed_each users]. unfold finished, later, execute, emit, call, mbind,
      script_bind, user_insert, first_user.
    cbn [env dirname trace world username email]. rewrite Hx.
    cbn [env dirname trace world fst snd]. rewrite <- !app_assoc. reflexivity.
  - intros p Ha Hq after. subst after. rewrite (sim_seed p Ha Hq).
    cbn [fst snd later world trace].
    unfold columns, roles_held.
    split; [reflexivity |]. split; [reflexivity |]. split; [reflexivity |].
    assert (Hrows : forall table,
               Sim.rows_of table
                 (Sim.with_session None
                    (Sim.with_salt (Sim.salt (world p) + 1)%N
                       (Sim.with_tables (emptied (Sim.tables (world p))) (world p))))
               = []).
    { intros table. exact (emptied_rows table (Sim.tables (world p)) (world p)). }
    split; [exact Hrows |].
    rewrite !Hrows. repeat split.
Qed.

Lemma seed_stops_at_its_first_insert_witness :
  (seed (Demo.start (Demo.flags "1") Demo.server)).1 = Returned tt
  /\ trace (seed (Demo.start (Demo.flags "1") Demo.server)).2
     = [ Connect (client_config (Demo.flags "1") true);
         Query select_tables_sql;
         Query (String.concat "; " (truncate_clause <$> ["users"; "tasks"; "schemaversion"]));
         ConsoleLog "All tables have been truncated successfully.";
         ScryptHash "Password123$";
         user_insert first_user "scrypt:7:Password123$";
         ConsoleError (Some "Error seeding database:") not_a_function;
         ClientEnd ]
  /\ roles_held (VNumber 1) (world (seed (Demo.start (Demo.flags "1") Demo.server)).2) = []
  /\ roles_held (VNumber 3) (world (seed (Demo.start (Demo.flags "1") Demo.server)).2) = []
  /\ Sim.rows_of "users" (world (seed (Demo.start (Demo.flags "1") Demo.server)).2) = [].
Proof.
  pose proof (proj2 seed_stops_at_its_first_insert
                (Demo.start (Demo.flags "1") Demo.server)
                eq_refl ltac:(repeat constructor))
    as (Hr & Ht & _ & Hrows & _ & _ & Hheld).
  split; [exact Hr |]. split; [exact Ht |].
  split; [apply Hheld |]. split; [apply Hheld | apply Hrows].
Defined.

(** * One hash for every user *)

(** C10: the claim fails on the code, by the defect of C3.  [seedUsers]
    calls the password manager once, on the plaintext [Password123$],
    before the loop; none of the events that follow is another hashing,
    and every insert of a user passes the hash that call returned as its
    third parameter, the one its statement takes for [password].  But
    the insert is a call of [connection.execute],
    which the client of [pg] does not have: on the simulated store the
    run attempts one insert, that of [basic] with the hash, and no user
    is stored, so there is no stored hash. *)
Theorem one_hash_is_computed_and_none_is_stored :
  String.words insert_user_sql
  = [ "INSERT"; "INTO"; "users"; "(username,"; "email,"; "password)";
      "VALUES"; "(?,"; "?,"; "?)" ]
  /\ (forall (W : Type) (C : Collaborators W) (p : Proc W),
      exists evs,
        trace (seedUsers p).2 = trace p ++ ScryptHash "Password123$" :: evs
        /\ Forall no_hashing evs
        /\ match scrypt "Password123$" (world p) with
           | (Returned h, _) => Forall (carries h) evs
           | (Thrown _, _) => evs = []
           end)
  /\ (forall p : Proc Sim.State,
         Sim.accepts (world p) (client_config (env p) true) = true ->
         Forall (fun t => quote_free t.1 = true) (Sim.tables (world p)) ->
         exists evs,
           trace (seed p).2 = trace p ++ evs
           /\ inserts evs
              = [user_insert first_user
                   (Sim.kdf (world p) (Sim.salt (world p)) "Password123$")]
           /\ columns "users" "username" "password" (world (seed p).2) = []).
Proof.
  split; [vm_compute; reflexivity |]. split.
  - intros W C p. apply seedUsers_hashes_once.
  - intros p Ha Hq. rewrite (sim_seed p Ha Hq). cbn [fst snd later world trace].
    eexists. split; [reflexivity |]. split.
    + unfold seed_events, inserts. cbn [List.filter is_execute].
      rewrite List.filter_app. fold (inserts (truncation_events (Sim.tables (world p)))).
      rewrite truncation_holds_no_insert. reflexivity.
    + unfold columns.
      change (Sim.rows_of "users" _)
        with (Sim.rows_of "users"
                (Sim.with_tables (emptied (Sim.tables (world p))) (world p))).
      rewrite emptied_rows. reflexivity.
Qed.

Lemma one_hash_is_computed_and_none_is_stored_witness :
  exists evs,
    trace (seed (Demo.start (Demo.flags "1") Demo.server)).2 = evs
    /\ inserts evs = [user_insert first_user "scrypt:7:Password123$"]
    /\ columns "users" "username" "password"
         (world (seed (Demo.start (Demo.flags "1") Demo.server)).2) = [].
Proof.
  apply (proj2 (proj2 one_hash_is_computed_and_none_is_stored)
           (Demo.start (Demo.flags "1") Demo.server)).
  - reflexivity.
  - repeat constructor.
Defined.

(** * Migrating against the simulated store *)

Lemma sim_plain_query (s : Sim.State) (m : Migration) :
  plain_sql s m ->
  pg_query (body m) s
  = (Returned (mkResult [] []), Sim.with_applied (Sim.applied s ++ [body m]) s).
Proof.
  intros [Hread Hrej]. simpl. unfold Sim.query. rewrite Hread, Hrej. reflexivity.
Qed.

Lemma names_add_row (t : string) (row : Row) (tables : list (string * Sim.Table)) :
  fst <$> Sim.add_row t row tables = fst <$> tables.
Proof.
  induction tables as [| [n tb] tables IH]; [reflexivity |].
  cbn [Sim.add_row]. destruct (decide (n = t)); cbn [fmap list_fmap fst]; [reflexivity |].
  f_equal. exact IH.
Qed.

Lemma table_named_add_row (t : string) (row : Row) (tables : list (string * Sim.Table))
    (tb : Sim.Table) :
  Sim.table_named t tables = Some tb ->
  Sim.table_named t (Sim.add_row t row tables)
  = Some (Sim.mkTable (Sim.next_id tb) (Sim.table_rows tb ++ [row])).
Proof.
  induction tables as [| [n tb'] tables IH]; [discriminate |].
  cbn [Sim.table_named Sim.add_row].
  destruct (decide (n = t)) as [Heq | Hne]; intros Hfound.
  - injection Hfound as ->. cbn [Sim.table_named].
    destruct (decide (n = t)); [reflexivity | contradiction].
  - cbn [Sim.table_named]. destruct (decide (n = t)); [contradiction |].
    exact (IH Hfound).
Qed.

Lemma table_named_has (t : string) (tables : list (string * Sim.Table)) (tb : Sim.Table) :
  Sim.table_named t tables = Some tb -> t ∈ (fst <$> tables).
Proof.
  induction tables as [| [n tb'] tables IH]; [discriminate |].
  cbn [Sim.table_named fmap list_fmap fst].
  destruct (decide (n = t)) as [-> | Hne]; intros Hfound.
  - apply elem_of_cons. left. reflexivity.
  - apply elem_of_cons. right. exact (IH Hfound).
Qed.

Lemma max_snoc (l : list N) (v : N) :
  foldr N.max 0%N (l ++ [v]) = N.max (foldr N.max 0%N l) v.
Proof.
  induction l as [| x l IH]; cbn [foldr app]; [lia |].
  rewrite IH. lia.
Qed.

(** A ledger that stands at a version is a table of the schema. *)
Lemma ledger_is_a_table (t : string) (s : Sim.State) (v : N) :
  Sim.version_of t s = Some v -> Sim.has_table t s = true.
Proof.
  unfold Sim.version_of, Sim.has_table. intros Hv.
  destruct (Sim.table_named t (Sim.tables s)) as [tb |] eqn:Hfound; [| discriminate].
  apply bool_decide_eq_true_2. exact (table_named_has _ _ _ Hfound).
Qed.

(** Recording a version leaves the ledger at the greater of the two. *)
Lemma version_recorded (t : string) (s s' : Sim.State) (current v : N) :
  Sim.version_of t s = Some current ->
  Sim.version_of t
    (Sim.with_tables
       (Sim.add_row t [("version", VNumber (Z.of_N v))] (Sim.tables s)) s')
  = Some (N.max current v).
Proof.
  unfold Sim.version_of. cbn [Sim.tables Sim.with_tables]. intros Hv.
  destruct (Sim.table_named t (Sim.tables s)) as [tb |] eqn:Hfound; [| discriminate].
  injection Hv as <-.
  rewrite (table_named_add_row _ _ _ _ Hfound).
  unfold Sim.versions. cbn [Sim.table_rows].
  rewrite omap_app. cbn [omap list_omap prop].
  destruct (decide ("version" = "version")) as [_ | Hne]; [| contradiction].
  cbn [omap list_omap]. rewrite N2Z.id.
  fold (Sim.versions tb). rewrite max_snoc. reflexivity.
Qed.

Lemma migrated_ledger (ms : list Migration) :
  forall (s : Sim.State) (current : N),
    Sim.ledger s = Some current ->
    Sim.ledger (migrated ms s) = Some (foldl (fun c m => N.max c (version m)) current ms).
Proof.
  induction ms as [| m ms IH]; intros s current Hled; [exact Hled |].
  cbn [migrated foldl]. fold (migrated ms). apply IH.
  unfold Sim.ledger in *. apply version_recorded. exact Hled.
Qed.

Lemma sim_apply_pending (ms : list Migration) (p : Proc Sim.State) :
  Sim.has_table "schemaversion" (world p) = true ->
  Forall (plain_sql (world p)) ms ->
  for_of ms
    (fun m =>
       (result ← query (body m); mret (mkResult (rows result) (fields result)));;
       emit (LedgerRecord "schemaversion" (version m));;
       call (ledger_record "schemaversion" (version m))) p
  = (Returned tt, later p (flat_map migration_steps ms) (migrated ms (world p))).
Proof.
  revert p. induction ms as [| m ms IH]; intros p Hhas Hall.
  - simpl. unfold later. rewrite app_nil_r. destruct p; reflexivity.
  - apply Forall_cons in Hall as [Hm Hms].
    cbn [for_of]. unfold mbind at 1, script_bind at 1.
    assert (Hstep :
      ((result ← query (body m); mret (mkResult (rows result) (fields result)));;
       emit (LedgerRecord "schemaversion" (version m));;
       call (ledger_record "schemaversion" (version m))) p
      = (Returned tt,
         later p (migration_steps m)
           (Sim.with_tables
              (Sim.add_row "schemaversion" [("version", VNumber (Z.of_N (version m)))]
                 (Sim.tables (world p)))
              (Sim.with_applied (Sim.applied (world p) ++ [body m]) (world p))))).
    { unfold query, emit, call, later, migration_steps, mbind, script_bind, mret, script_ret.
      cbn [env dirname trace world]. rewrite (sim_plain_query _ _ Hm).
      cbn [env dirname trace world ledger_record Sim.collaborators].
      unfold Sim.record_version.
      change (Sim.has_table "schemaversion"
                (Sim.with_applied (Sim.applied (world p) ++ [body m]) (world p)))
        with (Sim.has_table "schemaversion" (world p)).
      rewrite Hhas. cbn [env dirname trace world Sim.tables Sim.with_applied].
      rewrite <- app_assoc. reflexivity. }
    rewrite Hstep. rewrite IH.
    + unfold later. cbn [env dirname trace world flat_map migrated foldl].
      rewrite <- app_assoc. reflexivity.
    + cbn [later world]. unfold Sim.has_table. cbn [Sim.tables Sim.with_tables].
      rewrite names_add_row. exact Hhas.
    + cbn [later world]. eapply Forall_impl; [exact Hms |].
      intros m' [Hr Hj]. split; [exact Hr | exact Hj].
Qed.

(** A run of [doMigration] against the simulated store, the ledger
    standing at [current]. *)
Lemma sim_doMigration (e : gmap string string) (dir : string) (s : Sim.State) (current : N) :
  Sim.accepts s (client_config e true) = true ->
  exists_sync (migration_dir (fresh e dir s)) s = true ->
  Sim.ledger s = Some current ->
  Forall (plain_sql s) (pending current (listing dir s)) ->
  doMigration (fresh e dir s)
  = (Returned tt,
     later (fresh e dir s)
       ([ Connect (client_config e true);
          ExistsSync (migration_dir (fresh e dir s));
          LedgerRead "schemaversion" ]
        ++ flat_map migration_steps (pending current (listing dir s))
        ++ [ ConsoleLog "Migration completed!"; ClientEnd ])
       (Sim.with_session None (migrated (pending current (listing dir s)) s))).
Proof.
  intros Ha Hdir Hled Hall.
  unfold doMigration, postgrator_migrate.
  match goal with |- context [for_of _ ?b] => set (step := b) end.
  rewrite (after_connect true _ (fresh e dir s) _ (sim_connect _ _ Ha)).
  unfold migration_dir in *. cbn [fresh dirname] in Hdir.
  set (s1 := Sim.with_session (Some (Sim.session_database (client_config e true) s)) s).
  unfold try_finally, try_catch, existsSync, peek, emit, call, mbind, script_bind,
    mret, script_ret, connected, fresh, console_log, console_error, client_end, throw.
  cbn [env dirname trace world].
  change (exists_sync (path_join dir "../migrations") s1)
    with (exists_sync (path_join dir "../migrations") s).
  rewrite Hdir. cbn [negb env dirname trace world].
  change (ledger_read "schemaversion" s1) with (Sim.read_ledger "schemaversion" s1).
  unfold Sim.read_ledger.
  change (Sim.version_of "schemaversion" s1) with (Sim.ledger s).
  rewrite Hled. cbn [env dirname trace world].
  change (migration_files (path_join (path_join dir "../migrations") "*") s1)
    with (listing dir s).
  subst step. cbv beta.
  rewrite sim_apply_pending.
  - unfold later, emit, call, mbind, script_bind.
    cbn [env dirname trace world pg_end Sim.collaborators Sim.close fst snd].
    rewrite <- !app_assoc.
    replace (Sim.with_session None (migrated (pending current (listing dir s)) s1))
      with (Sim.with_session None (migrated (pending current (listing dir s)) s));
      [reflexivity |].
    generalize (pending current (listing dir s)). intros ms.
    assert (Hfold : forall ms s0 d,
               Sim.with_session d (migrated ms s0)
               = migrated ms (Sim.with_session d s0)).
    { clear. unfold migrated.
      induction ms as [| m ms IH]; intros s0 d; cbn [foldl]; [reflexivity |].
      rewrite IH. reflexivity. }
    rewrite !Hfold. reflexivity.
  - cbn [world]. exact (ledger_is_a_table _ _ _ Hled).
  - cbn [world]. exact Hall.
Qed.

Lemma pending_of_three (b1 b2 b3 : string) (files : list Migration) :
  files ∈ permutations [mkMigration 1 b1; mkMigration 2 b2; mkMigration 3 b3] ->
  pending 1 files = [mkMigration 2 b2; mkMigration 3 b3] /\ pending 3 files = [].
Proof.
  intros Hin. cbn in Hin.
  repeat (apply elem_of_cons in Hin as [-> | Hin]; [split; vm_compute; reflexivity |]).
  inversion Hin.
Qed.

(** C6. With Postgrator modelled from the specification: given migration
    files of versions 1, 2 and 3 (in whatever order the directory lists
    them) and a ledger that records version 1, the runner executes the
    body of 002, then the body of 003, nothing else, and the ledger ends
    at 3; run again with the same files, it executes no migration and
    changes nothing in the store. *)
Theorem pending_migrations_run_once_in_order :
  forall (e : gmap string string) (dir : string) (s : Sim.State) (b1 b2 b3 : string),
    Sim.accepts s (client_config e true) = true ->
    exists_sync (migration_dir (fresh e dir s)) s = true ->
    listing dir s ∈ permutations [mkMigration 1 b1; mkMigration 2 b2; mkMigration 3 b3] ->
    Sim.ledger s = Some 1%N ->
    plain_sql s (mkMigration 2 b2) ->
    plain_sql s (mkMigration 3 b3) ->
    runs_002_003_then_nothing e dir s b2 b3.
Proof.
  intros e dir s b1 b2 b3 Ha Hdir Hfiles Hled H2 H3.
  destruct (pending_of_three b1 b2 b3 _ Hfiles) as [Hp1 Hp3].
  unfold runs_002_003_then_nothing. cbv zeta.
  assert (Hall : Forall (plain_sql s) (pending 1 (listing dir s))).
  { rewrite Hp1. constructor; [exact H2 | constructor; [exact H3 | constructor]]. }
  rewrite (sim_doMigration e dir s 1 Ha Hdir Hled Hall). rewrite Hp1.
  cbn [fst snd later world trace fresh flat_map migration_steps version body app].
  set (s' := Sim.with_session None (migrated _ s)).
  assert (Hled' : Sim.ledger s' = Some 3%N)
    by exact (migrated_ledger [mkMigration 2 b2; mkMigration 3 b3] s 1 Hled).
  assert (Hlisting : listing dir s' = listing dir s) by reflexivity.
  assert (Hall' : Forall (plain_sql s') (pending 3 (listing dir s'))).
  { rewrite Hlisting, Hp3. constructor. }
  assert (Ha' : Sim.accepts s' (client_config e true) = true) by exact Ha.
  assert (Hdir' : exists_sync (migration_dir (fresh e dir s')) s' = true) by exact Hdir.
  rewrite (sim_doMigration e dir s' 3 Ha' Hdir' Hled' Hall').
  rewrite Hlisting, Hp3.
  repeat split; [exact Hled' |].
  subst s'. cbn. rewrite <- app_assoc. reflexivity.
Qed.

Lemma pending_migrations_run_once_in_order_witness :
  runs_002_003_then_nothing (Demo.flags "1") "/app/backend/scripts" Demo.behind
    Demo.tasks_sql Demo.third_sql.
Proof.
  apply (pending_migrations_run_once_in_order (Demo.flags "1") "/app/backend/scripts"
           Demo.behind Demo.users_sql Demo.tasks_sql Demo.third_sql).
  - reflexivity.
  - reflexivity.
  - vm_compute. set_solver.
  - reflexivity.
  - split; vm_compute; reflexivity.
  - split; vm_compute; reflexivity.
Defined.

(** * Beyond the claims: failures of the collaborators *)

Section Failures.
Context {W : Type} `{Collaborators W}.

(** A [try] whose [catch] only logs always completes. *)
Lemma logged_try_returns (body : Script W unit) (label : option string) (q : Proc W) :
  (try_catch body (fun e => console_error label e) q).1 = Returned tt.
Proof.
  unfold try_catch, console_error, emit.
  destruct (body q) as [[[] | e] q1]; reflexivity.
Qed.

Lemma doMigration_returns (p : Proc W) (w1 : W) :
  pg_connect (client_config (env p) true) (world p) = (Returned tt, w1) ->
  (doMigration p).1 = Returned tt.
Proof.
  intros Hc. unfold doMigration. rewrite (after_connect true _ p w1 Hc).
  unfold try_finally.
  match goal with
  | |- context [try_catch ?b (fun err => console_error None err) (connected p true w1)] =>
      pose proof (logged_try_returns b None (connected p true w1)) as Hbody;
      destruct (try_catch b (fun err => console_error None err) (connected p true w1))
        as [r q1]
  end.
  simpl in Hbody. subst r.
  pose proof (logged_try_returns client_end None q1) as Hend.
  destruct (try_catch client_end (fun err => console_error None err) q1) as [r q2].
  simpl in Hend. subst r. reflexivity.
Qed.

Lemma connected_run_starts_with_connect {A} with_database (rest : Script W A) p w1 :
  pg_connect (client_config (env p) with_database) (world p) = (Returned tt, w1) ->
  emits (fun _ => True) rest ->
  exists evs,
    trace ((connection ← new_client with_database; connect connection;; rest) p).2
    = trace p ++ Connect (client_config (env p) with_database) :: evs.
Proof.
  intros Hc Hrest. rewrite (after_connect with_database rest p w1 Hc).
  destruct (Hrest (connected p with_database w1)) as (evs & Ht & _).
  exists evs. rewrite Ht. unfold connected. cbn [trace].
  rewrite <- app_assoc. reflexivity.
Qed.

End Failures.

(** X1. [connect] is awaited outside the [try]: when it throws, each of
    the four operations throws that error to the process boundary, and
    the run is over: no statement was sent, nothing was logged, [end] was
    not called. *)
Theorem refused_connection_is_fatal :
  forall (W : Type) (C : Collaborators W) (p : Proc W) (e : JsError) (w1 : W),
    (pg_connect (client_config (env p) true) (world p) = (Thrown e, w1) ->
     createDatabase p = (Thrown e, later p [Connect (client_config (env p) true)] w1)
     /\ doMigration p = (Thrown e, later p [Connect (client_config (env p) true)] w1)
     /\ seed p = (Thrown e, later p [Connect (client_config (env p) true)] w1))
    /\ (pg_connect (client_config (env p) false) (world p) = (Thrown e, w1) ->
        dropDatabase p = (Thrown e, later p [Connect (client_config (env p) false)] w1)).
Proof.
  intros W C p e w1. split.
  - intros Hc. repeat split.
    + unfold createDatabase. apply connect_refused, Hc.
    + unfold doMigration. apply connect_refused, Hc.
    + unfold seed. apply connect_refused, Hc.
  - intros Hc. unfold dropDatabase. apply connect_refused, Hc.
Qed.

Lemma refused_connection_is_fatal_witness :
  seed (Demo.start (Demo.flags "1") Variants.unreachable)
  = (Thrown (mkError "Error" "connection refused" (Some "ECONNREFUSED")),
     later (Demo.start (Demo.flags "1") Variants.unreachable)
       [Connect (client_config (Demo.flags "1") true)] Variants.unreachable).
Proof.
  apply (proj1 (refused_connection_is_fatal Sim.State Sim.collaborators
                  (Demo.start (Demo.flags "1") Variants.unreachable)
                  (mkError "Error" "connection refused" (Some "ECONNREFUSED"))
                  Variants.unreachable)).
  reflexivity.
Defined.

(** X2. Once the connection is open, the outcome of [createDatabase],
    [dropDatabase] and [seed] is the outcome of their [end()] in
    [finally]: they throw only what [end] throws, whatever the store did
    to their statements.  [doMigration], which catches the error of its
    [end] too, always returns. *)
Theorem connected_run_throws_only_what_end_throws :
  forall (W : Type) (C : Collaborators W) (p : Proc W) (w1 : W),
    (pg_connect (client_config (env p) true) (world p) = (Returned tt, w1) ->
     (exists w, (createDatabase p).1 = (pg_end w).1
                /\ world (createDatabase p).2 = (pg_end w).2)
     /\ (exists w, (seed p).1 = (pg_end w).1 /\ world (seed p).2 = (pg_end w).2)
     /\ (doMigration p).1 = Returned tt)
    /\ (pg_connect (client_config (env p) false) (world p) = (Returned tt, w1) ->
        exists w, (dropDatabase p).1 = (pg_end w).1
                  /\ world (dropDatabase p).2 = (pg_end w).2).
Proof.
  intros W C p w1. split.
  - intros Hc. split; [| split].
    + rewrite (createDatabase_outcomes p w1 Hc).
      destruct (pg_query (create_sql (env p)) w1) as [[r | e] w2];
        [| destruct (decide _)]; exists w2; split; reflexivity.
    + rewrite (seed_outcomes p w1 Hc).
      destruct ((truncateTables;; seedUsers) (connected p true w1)) as [[u | e] p2];
        exists (world p2); split; reflexivity.
    + apply (doMigration_returns p w1 Hc).
  - intros Hc. rewrite (dropDatabase_outcomes p w1 Hc).
    destruct (pg_query (drop_sql (env p)) w1) as [[r | e] w2];
      [| destruct (decide _)]; exists w2; split; reflexivity.
Qed.

Lemma connected_run_throws_only_what_end_throws_witness :
  (exists w, (@createDatabase _ Variants.hanging (Demo.start (Demo.flags "1") Demo.server)).1
             = (Thrown (Error "socket hang up") : Outcome unit)
             /\ world (@createDatabase _ Variants.hanging
                         (Demo.start (Demo.flags "1") Demo.server)).2 = w)
  /\ (@doMigration _ Variants.hanging (Demo.start (Demo.flags "1") Demo.server)).1
     = Returned tt.
Proof.
  pose proof (proj1 (connected_run_throws_only_what_end_throws Sim.State Variants.hanging
                       (Demo.start (Demo.flags "1") Demo.server)
                       (Sim.with_session (Some "app") Demo.server)) eq_refl)
    as ((w & Ho & Hw) & _ & Hm).
  split; [| exact Hm].
  exists (@pg_end _ Variants.hanging w).2. split; [exact Ho | exact Hw].
Defined.

(** X3. Whatever the store answers, a connected run of [createDatabase]
    sends one statement, its [CREATE DATABASE] for the database named in
    the environment, and a connected run of [dropDatabase] sends one
    statement, its [DROP DATABASE]. *)
Theorem create_and_drop_send_one_statement :
  forall (W : Type) (C : Collaborators W) (p : Proc W) (w1 : W),
    (pg_connect (client_config (env p) true) (world p) = (Returned tt, w1) ->
     exists evs,
       trace (createDatabase p).2 = trace p ++ evs
       /\ statements evs = [Query (create_sql (env p))])
    /\ (pg_connect (client_config (env p) false) (world p) = (Returned tt, w1) ->
        exists evs,
          trace (dropDatabase p).2 = trace p ++ evs
          /\ statements evs = [Query (drop_sql (env p))]).
Proof.
  intros W C p w1. split; intros Hc.
  - rewrite (createDatabase_outcomes p w1 Hc).
    destruct (pg_query (create_sql (env p)) w1) as [[r | e] w2];
      [| destruct (decide _)];
      unfold finished, later; cbn [snd trace];
      eexists; (split; [reflexivity | reflexivity]).
  - rewrite (dropDatabase_outcomes p w1 Hc).
    destruct (pg_query (drop_sql (env p)) w1) as [[r | e] w2];
      [| destruct (decide _)];
      unfold finished, later; cbn [snd trace];
      eexists; (split; [reflexivity | reflexivity]).
Qed.

Lemma create_and_drop_send_one_statement_witness :
  exists evs,
    trace (dropDatabase (Demo.start (Demo.flags "1") Demo.restricted)).2 = evs
    /\ statements evs = [Query (drop_sql (Demo.flags "1"))].
Proof.
  apply (proj2 (create_and_drop_send_one_statement Sim.State Sim.collaborators
                  (Demo.start (Demo.flags "1") Demo.restricted)
                  (Sim.with_session (Some "app") Demo.restricted))).
  reflexivity.
Defined.

Lemma flags_differ (op op' : Gated) : op <> op' -> flag_of op' <> flag_of op.
Proof. destruct op, op'; intros Hne; (contradiction || discriminate). Qed.

(** X4. Each gate reads its own flag only: setting the flag of another
    operation, to whatever value, neither opens a closed gate nor closes
    an open one. *)
Theorem each_gate_reads_only_its_own_flag :
  forall (W : Type) (C : Collaborators W) (op op' : Gated) (v : string) (p : Proc W),
    op <> op' ->
    (Js.strict_neq (Js.Number (env p !! flag_of op)) Js.one = true ->
     script_of op (with_variable (flag_of op') v p)
     = (Thrown (Error (refusal_of op)), with_variable (flag_of op') v p))
    /\ (Js.strict_neq (Js.Number (env p !! flag_of op)) Js.one = false ->
        script_of op (with_variable (flag_of op') v p)
        = operation_of op (with_variable (flag_of op') v p)).
Proof.
  intros W C op op' v p Hne.
  assert (Hlook : env (with_variable (flag_of op') v p) !! flag_of op = env p !! flag_of op).
  { unfold with_variable. cbn [env]. apply lookup_insert_ne, flags_differ, Hne. }
  split; intros Hflag.
  - apply gate_closed. rewrite Hlook. exact Hflag.
  - apply gate_open. rewrite Hlook. exact Hflag.
Qed.

Lemma each_gate_reads_only_its_own_flag_witness :
  script_of DropDb
    (with_variable "CAN_SEED_DATABASE" "1" (Demo.start Demo.connection_settings Demo.server))
  = (Thrown (Error (refusal_of DropDb)),
     with_variable "CAN_SEED_DATABASE" "1" (Demo.start Demo.connection_settings Demo.server)).
Proof.
  apply (proj1 (each_gate_reads_only_its_own_flag Sim.State Sim.collaborators
                  DropDb SeedDb "1"
                  (Demo.start Demo.connection_settings Demo.server)
                  ltac:(discriminate))).
  vm_compute. reflexivity.
Defined.

(** X5. [migrate.ts] has no permission gate: in every environment, the
    three flags missing or set to anything, the first thing its run does
    is to open the connection, and it throws only what [connect] throws. *)
Theorem migrate_is_not_gated :
  forall (W : Type) (C : Collaborators W) (p : Proc W),
    (exists evs,
        trace (migrate_ts p).2 = trace p ++ Connect (client_config (env p) true) :: evs)
    /\ (forall e, (migrate_ts p).1 = Thrown e ->
                  (pg_connect (client_config (env p) true) (world p)).1 = Thrown e).
Proof.
  intros W C p. unfold migrate_ts.
  destruct (pg_connect (client_config (env p) true) (world p)) as [[[] | e] w1] eqn:Hc.
  - split.
    + unfold doMigration. eapply connected_run_starts_with_connect; [exact Hc |].
      unfold postgrator_migrate. emits_auto; exact I.
    + intros e He. rewrite (doMigration_returns p w1 Hc) in He. discriminate He.
  - unfold doMigration. rewrite (connect_refused true _ p e w1 Hc). split.
    + exists []. reflexivity.
    + intros e' He'. exact He'.
Qed.

Lemma migrate_is_not_gated_witness :
  (pg_connect (client_config Demo.connection_settings true) Variants.unreachable).1
  = Thrown (mkError "Error" "connection refused" (Some "ECONNREFUSED")).
Proof.
  apply (proj2 (migrate_is_not_gated Sim.State Sim.collaborators
                  (Demo.start Demo.connection_settings Variants.unreachable))).
  vm_compute. reflexivity.
Defined.

(** * Beyond the claims: edges of the seed script *)

(** X6. A schema without base tables: [truncateTables] sends its
    enumeration and nothing else, no [TRUNCATE] and no log line, and the
    seeding goes on with [seedUsers]. *)
Theorem empty_schema_is_not_truncated :
  forall (W : Type) (C : Collaborators W) (p : Proc W) (result : QueryResult) (w1 : W),
    pg_query select_tables_sql (world p) = (Returned result, w1) ->
    rows result = [] ->
    truncateTables p = (Returned tt, later p [Query select_tables_sql] w1)
    /\ (truncateTables;; seedUsers) p = seedUsers (later p [Query select_tables_sql] w1).
Proof.
  intros W C p result w1 Hq Hrows.
  assert (Ht : truncateTables p = (Returned tt, later p [Query select_tables_sql] w1)).
  { rewrite truncateTables_outcomes, Hq, Hrows. reflexivity. }
  split; [exact Ht |].
  unfold mbind, script_bind. rewrite Ht. reflexivity.
Qed.

Lemma empty_schema_is_not_truncated_witness :
  truncateTables (Demo.start (Demo.flags "1") (Sim.with_tables [] Demo.server))
  = (Returned tt,
     later (Demo.start (Demo.flags "1") (Sim.with_tables [] Demo.server))
       [Query select_tables_sql] (Sim.with_tables [] Demo.server)).
Proof.
  apply (proj1 (empty_schema_is_not_truncated Sim.State Sim.collaborators
                  (Demo.start (Demo.flags "1") (Sim.with_tables [] Demo.server))
                  (mkResult [] ["table_name"]) (Sim.with_tables [] Demo.server)
                  eq_refl eq_refl)).
Defined.

(** X7. The loop reads the [id] of the new user from the first row of
    the answer to its insert.  When that answer carries no row (the
    awaited array is empty or its first result has no rows, which is how
    PostgreSQL answers an [INSERT] without [RETURNING]), the loop throws a
    [TypeError] right after the first insert of a user: no role and no
    association is inserted, and no other user. *)
Theorem rowless_answer_stops_the_seed_loop :
  forall (W : Type) (C : Collaborators W) (hash : string) (acc : list Value)
         (u : SeedUser) (rest : list SeedUser) (p : Proc W)
         (answer : list QueryResult) (w1 : W),
    pg_execute insert_user_sql
      [VString (username u); VString (email u); VString hash] (world p)
    = (Returned answer, w1) ->
    rowless_answer answer ->
    seed_each hash acc (u :: rest) p
    = (Thrown (rowless_error answer), later p [user_insert u hash] w1).
Proof.
  intros W C hash acc u rest p answer w1 Hx Hrowless.
  cbn [seed_each]. unfold user_insert, later.
  unfold mbind at 1 2, script_bind at 1 2.
  unfold execute at 1. unfold mbind at 1, script_bind at 1, emit at 1, call at 1.
  cbn [env dirname trace world]. rewrite Hx.
  destruct Hrowless as [-> | (r & more & -> & Hrows)].
  - reflexivity.
  - unfold first_row_id. cbn [lookup list_lookup]. rewrite Hrows. reflexivity.
Qed.

Lemma rowless_answer_stops_the_seed_loop_witness :
  inserts (trace (@seed _ Variants.rowless (Demo.start (Demo.flags "1") Demo.server)).2)
  = [user_insert (mkUser "basic" "basic@example.com") "scrypt:7:Password123$"]
  /\ @seed_each _ Variants.rowless "h" [] users (Demo.start (Demo.flags "1") Demo.server)
     = (Thrown (TypeError "Cannot read properties of undefined (reading 'id')"),
        later (Demo.start (Demo.flags "1") Demo.server)
          [user_insert (mkUser "basic" "basic@example.com") "h"] Demo.server).
Proof.
  split; [vm_compute; reflexivity |].
  apply (rowless_answer_stops_the_seed_loop Sim.State Variants.rowless "h" []
           (mkUser "basic" "basic@example.com") _ _ [mkResult [] []]).
  - reflexivity.
  - right. exists (mkResult [] []), []. split; reflexivity.
Defined.

(** X8. The seed run is not atomic.  When the password manager throws,
    the tables have been truncated already: the run logs the error and
    ends the connection without a single insert, leaving the tables
    empty. *)
Theorem failed_hashing_leaves_the_tables_truncated :
  forall (W : Type) (C : Collaborators W) (p p1 : Proc W) (e : JsError) (w1 w2 : W),
    pg_connect (client_config (env p) true) (world p) = (Returned tt, w1) ->
    truncateTables (connected p true w1) = (Returned tt, p1) ->
    scrypt "Password123$" (world p1) = (Thrown e, w2) ->
    seed p
    = finished (later p1 [ScryptHash "Password123$"] w2)
        [ConsoleError (Some "Error seeding database:") e] w2.
Proof.
  intros W C p p1 e w1 w2 Hc Ht Hs.
  rewrite (seed_outcomes p w1 Hc).
  unfold mbind at 1, script_bind at 1. rewrite Ht.
  unfold seedUsers. rewrite seedUsers_of_hash, Hs. reflexivity.
Qed.

Lemma failed_hashing_leaves_the_tables_truncated_witness :
  Sim.tables (world (@seed _ Variants.hashless (Demo.start (Demo.flags "1") Demo.server)).2)
  = [ ("users", empty_table); ("tasks", empty_table); ("schemaversion", empty_table) ]
  /\ inserts (trace (@seed _ Variants.hashless (Demo.start (Demo.flags "1") Demo.server)).2)
     = [].
Proof.
  rewrite (failed_hashing_leaves_the_tables_truncated Sim.State Variants.hashless
             (Demo.start (Demo.flags "1") Demo.server)
             (@truncateTables _ Variants.hashless
                (connected (Demo.start (Demo.flags "1") Demo.server) true
                   (Sim.with_session (Some "app") Demo.server))).2
             (Error "scrypt failed")
             (Sim.with_session (Some "app") Demo.server)
             (Sim.with_tables (emptied (Sim.tables Demo.server))
                (Sim.with_session (Some "app") Demo.server))).
  - split; vm_compute; reflexivity.
  - reflexivity.
  - vm_compute. reflexivity.
  - vm_compute. reflexivity.
Defined.

(** * Beyond the claims: the migration script *)

Section Migration.
Context {W : Type} `{Collaborators W}.

(** The shape of [doMigration], whatever the runner it calls does. *)
Lemma migration_shape (runner : string -> Script W unit) (p : Proc W) (w1 : W) :
  pg_connect (client_config (env p) true) (world p) = (Returned tt, w1) ->
  exists_sync (migration_dir p) w1 = true ->
  (connection ← new_client true;
   connect connection;;
   try_finally
     (try_catch
        (here ← peek dirname;
         let migrationDir := path_join here "../migrations" in
         present ← existsSync migrationDir;
         (if negb present then
            throw (Error ("Migration directory " +:+ dq +:+ migrationDir +:+ dq
                          +:+ " does not exist. Skipping migrations."))
          else mret tt);;
         runner (path_join migrationDir "*");;
         console_log "Migration completed!")
        (fun err => console_error None err))
     (try_catch client_end (fun err => console_error None err))) p
  =
  match runner (path_join (migration_dir p) "*") (checked p w1) with
  | (Returned _, p2) =>
      (Returned tt,
       later p2 (ConsoleLog "Migration completed!" :: end_logged (pg_end (world p2)).1)
             (pg_end (world p2)).2)
  | (Thrown e, p2) =>
      (Returned tt,
       later p2 (ConsoleError None e :: end_logged (pg_end (world p2)).1)
             (pg_end (world p2)).2)
  end.
Proof.
  intros Hc Hdir. rewrite (after_connect true _ p w1 Hc).
  unfold checked, migration_dir in *.
  unfold try_finally, try_catch, existsSync, console_log, console_error, client_end,
    throw, peek, emit, call, later, connected, end_logged, mbind, script_bind,
    mret, script_ret.
  cbn [env dirname trace world]. rewrite Hdir. cbn [negb env dirname trace world].
  destruct (runner _ _) as [[[] | e] p2]; cbn [env dirname trace world];
    destruct (pg_end (world p2)) as [[[] | e'] w3]; cbn [fst snd env dirname trace world];
    rewrite <- ?app_assoc; reflexivity.
Qed.

(** Every run of [doMigration] that connected and found its directory. *)
Lemma doMigration_outcomes (p : Proc W) (w1 : W) :
  pg_connect (client_config (env p) true) (world p) = (Returned tt, w1) ->
  exists_sync (migration_dir p) w1 = true ->
  doMigration p =
  match postgrator_migrate (path_join (migration_dir p) "*") "schemaversion" exec_query
          (checked p w1) with
  | (Returned _, p2) =>
      (Returned tt,
       later p2 (ConsoleLog "Migration completed!" :: end_logged (pg_end (world p2)).1)
             (pg_end (world p2)).2)
  | (Thrown e, p2) =>
      (Returned tt,
       later p2 (ConsoleError None e :: end_logged (pg_end (world p2)).1)
             (pg_end (world p2)).2)
  end.
Proof.
  intros Hc Hdir.
  exact (migration_shape
           (fun pattern => postgrator_migrate pattern "schemaversion" exec_query)
           p w1 Hc Hdir).
Qed.

End Migration.

(** X9. When Postgrator's [migrate()] throws (a migration the store
    rejects, say), [doMigration] does not log [Migration completed!]: it
    writes the error to the console, ends the connection and returns
    normally.  When [migrate()] returns, the completion line is the only
    thing [doMigration] adds before ending the connection. *)
Theorem failed_migration_is_logged_not_thrown :
  forall (W : Type) (C : Collaborators W) (p p2 : Proc W) (w1 : W),
    pg_connect (client_config (env p) true) (world p) = (Returned tt, w1) ->
    exists_sync (migration_dir p) w1 = true ->
    (forall e,
        postgrator_migrate (path_join (migration_dir p) "*") "schemaversion" exec_query
          (checked p w1) = (Thrown e, p2) ->
        doMigration p
        = (Returned tt,
           later p2 (ConsoleError None e :: end_logged (pg_end (world p2)).1)
                 (pg_end (world p2)).2))
    /\ (forall u,
           postgrator_migrate (path_join (migration_dir p) "*") "schemaversion" exec_query
             (checked p w1) = (Returned u, p2) ->
           doMigration p
           = (Returned tt,
              later p2 (ConsoleLog "Migration completed!" :: end_logged (pg_end (world p2)).1)
                    (pg_end (world p2)).2)).
Proof.
  intros W C p p2 w1 Hc Hdir. split.
  - intros e Hm. rewrite (doMigration_outcomes p w1 Hc Hdir), Hm. reflexivity.
  - intros u Hm. rewrite (doMigration_outcomes p w1 Hc Hdir), Hm. reflexivity.
Qed.

Lemma failed_migration_is_logged_not_thrown_witness :
  (migrate_ts (Demo.start (Demo.flags "1") Variants.picky)).1 = Returned tt
  /\ trace (migrate_ts (Demo.start (Demo.flags "1") Variants.picky)).2
     = [ Connect (client_config (Demo.flags "1") true);
         ExistsSync "/app/backend/migrations";
         LedgerRead "schemaversion";
         Query Demo.tasks_sql;
         ConsoleError None (Sim.db_error "42P07" "statement rejected");
         ClientEnd ]
  /\ Sim.ledger (world (migrate_ts (Demo.start (Demo.flags "1") Variants.picky)).2)
     = Some 1%N.
Proof.
  unfold migrate_ts.
  rewrite (proj1 (failed_migration_is_logged_not_thrown Sim.State Sim.collaborators
                    (Demo.start (Demo.flags "1") Variants.picky)
                    (postgrator_migrate
                       (path_join (migration_dir (Demo.start (Demo.flags "1") Variants.picky)) "*")
                       "schemaversion" exec_query
                       (checked (Demo.start (Demo.flags "1") Variants.picky)
                          (Sim.with_session (Some "app") Variants.picky))).2
                    (Sim.with_session (Some "app") Variants.picky) eq_refl eq_refl)
             (Sim.db_error "42P07" "statement rejected")).
  - repeat split; vm_compute; reflexivity.
  - vm_compute. reflexivity.
Defined.

(** * Beyond the claims: the name of the database *)

(** X10. [POSTGRES_DATABASE] is read without a check.  When it is not
    set, the scripts do not fail: the template literal renders
    [undefined], the statement names a database [undefined], and on the
    simulated store [createDatabase] creates a database of that name. *)
Theorem missing_database_name_becomes_undefined :
  forall (p : Proc Sim.State),
    env p !! "POSTGRES_DATABASE" = None ->
    Sim.accepts (world p) (client_config (env p) true) = true ->
    Sim.createdb (world p) = true ->
    create_sql (env p) = "CREATE DATABASE " +:+ dq +:+ "undefined" +:+ dq
    /\ drop_sql (env p) = "DROP DATABASE " +:+ dq +:+ "undefined" +:+ dq
    /\ (createDatabase p).1 = Returned tt
    /\ "undefined" ∈ Sim.catalog (world (createDatabase p).2)
    /\ Query ("CREATE DATABASE " +:+ dq +:+ "undefined" +:+ dq) ∈ trace (createDatabase p).2.
Proof.
  intros p Hname Ha Hp.
  assert (Hdb : database_name (env p) = "undefined").
  { unfold database_name. rewrite Hname. reflexivity. }
  assert (Hq : quote_free (database_name (env p)) = true) by (rewrite Hdb; reflexivity).
  assert (Hsql : create_sql (env p) = "CREATE DATABASE " +:+ dq +:+ "undefined" +:+ dq).
  { unfold create_sql. rewrite Hname. reflexivity. }
  split; [exact Hsql |].
  split; [unfold drop_sql; rewrite Hname; reflexivity |].
  rewrite (createDatabase_outcomes p _ (sim_connect _ _ Ha)).
  rewrite (sim_create _ _ Hq), Hdb, Hsql.
  cbn [Sim.createdb Sim.catalog Sim.with_session]. rewrite Hp. cbn [negb].
  destruct (bool_decide _) eqn:Hin;
    cbn [fst snd finished later world trace pg_end Sim.collaborators Sim.close
         Sim.catalog Sim.with_catalog Sim.with_session].
  - apply bool_decide_eq_true in Hin.
    split; [reflexivity |]. split; [exact Hin |].
    apply elem_of_app. right. set_solver.
  - split; [reflexivity |]. split; [set_solver |].
    apply elem_of_app. right. set_solver.
Qed.

Lemma missing_database_name_becomes_undefined_witness :
  "undefined" ∈ Sim.catalog (world (createDatabase (Demo.start Variants.nameless Demo.server)).2).
Proof.
  apply (missing_database_name_becomes_undefined (Demo.start Variants.nameless Demo.server)).
  - vm_compute. reflexivity.
  - reflexivity.
  - reflexivity.
Defined.

(** * Beyond the claims: the truncation statement *)

(** X13. On the simulated store, whatever the schema and its contents:
    when no table name holds a double quote, the statement
    [truncateTables] builds is read as the truncation of exactly the
    enumerated tables, and the run returns with every table emptied, its
    identity sequence restarted, and nothing else changed.  The
    schema-version table of Postgrator is a base table like the others:
    once it exists it is truncated with them, and the ledger is back at
    version 0. *)
Theorem truncation_empties_any_schema :
  forall (p : Proc Sim.State),
    Forall (fun t => quote_free t.1 = true) (Sim.tables (world p)) ->
    truncateTables p
    = (Returned tt,
       later p (truncation_events (Sim.tables (world p)))
             (Sim.with_tables (emptied (Sim.tables (world p))) (world p)))
    /\ (Sim.tables (world p) <> [] ->
        Sim.read_statement
          (String.concat "; " (truncate_clause <$> (fst <$> Sim.tables (world p))))
        = Sim.Truncate (fst <$> Sim.tables (world p)))
    /\ (forall v : N,
           Sim.ledger (world p) = Some v ->
           Query (String.concat "; " (truncate_clause <$> (fst <$> Sim.tables (world p))))
             ∈ trace (truncateTables p).2
           /\ "schemaversion" ∈ (fst <$> Sim.tables (world p))
           /\ Sim.ledger (world (truncateTables p).2) = Some 0%N).
Proof.
  intros p Hq. split; [apply sim_truncateTables, Hq |]. split.
  - intros Hne. apply read_joined.
    + destruct (Sim.tables (world p)); [contradiction | discriminate].
    + apply Forall_fmap. exact Hq.
  - intros v Hled. rewrite (sim_truncateTables p Hq). cbn [snd later trace world].
    unfold Sim.ledger, Sim.version_of in *. cbn [Sim.tables Sim.with_tables].
    destruct (Sim.table_named "schemaversion" (Sim.tables (world p))) as [tb |] eqn:Hfound;
      [| discriminate Hled].
    split; [| split].
    + destruct (Sim.tables (world p)) as [| t tables]; [discriminate Hfound |].
      apply elem_of_app. right. cbn [truncation_events]. set_solver.
    + exact (table_named_has _ _ _ Hfound).
    + rewrite (emptied_keeps_the_table _ _ _ Hfound). reflexivity.
Qed.

Lemma truncation_empties_any_schema_witness :
  Sim.tables (world (truncateTables (Demo.start (Demo.flags "1") Demo.server)).2)
  = [ ("users", empty_table); ("tasks", empty_table); ("schemaversion", empty_table) ]
  /\ Sim.ledger Demo.server = Some 2%N
  /\ Sim.ledger (world (truncateTables (Demo.start (Demo.flags "1") Demo.server)).2)
     = Some 0%N.
Proof.
  pose proof (truncation_empties_any_schema (Demo.start (Demo.flags "1") Demo.server)
                ltac:(repeat constructor)) as (Hrun & _ & Hledger).
  split; [rewrite Hrun; reflexivity |].
  split; [reflexivity |].
  exact (proj2 (proj2 (Hledger 2%N eq_refl))).
Defined.

(** * Beyond the claims: dropping, then creating *)

(** X11. The two scripts do not compose: once [dropDatabase] has dropped
    the database, [createDatabase] cannot create it again.  Its client
    asks for a session on the database that has just been dropped, the
    server turns the connection down, and [connect] throws outside the
    [try]: nothing is sent and the database stays absent. *)
Theorem dropped_database_cannot_be_created_again :
  forall (p : Proc Sim.State) (d : string),
    env p !! "POSTGRES_DATABASE" = Some d -> d <> EmptyString ->
    quote_free d = true ->
    Sim.accepts (world p) (client_config (env p) false) = true ->
    Sim.authenticates (world p) (client_config (env p) true) = true ->
    Sim.createdb (world p) = true ->
    Sim.session_database (client_config (env p) false) (world p) <> d ->
    d ∈ Sim.catalog (world p) ->
    let dropped := dropDatabase p in
    dropped.1 = Returned tt
    /\ (d ∉ Sim.catalog (world dropped.2))
    /\ createDatabase dropped.2
       = (Thrown (Sim.no_database d),
          later dropped.2 [Connect (client_config (env p) true)] (world dropped.2)).
Proof.
  intros p d He Hd Hq Ha Hauth Hp Hother Hin dropped. subst dropped.
  destruct (session_of_create (env p) (world p) d He Hd) as [_ Hname].
  rewrite <- Hname in Hq, Hother.
  pose proof (sim_dropDatabase p Ha Hp Hq Hother) as Hdrop.
  rewrite Hname, (bool_decide_eq_true_2 _ Hin) in Hdrop.
  rewrite Hdrop. cbn [fst snd].
  assert (Hout : d ∉ filter (fun n => n ≠ d) (Sim.catalog (world p))).
  { intros Hf. apply list_elem_of_filter in Hf as [Hf _]. apply Hf. reflexivity. }
  split; [reflexivity |]. split; [exact Hout |].
  match goal with |- createDatabase ?q0 = _ => set (q := q0) end.
  destruct (session_of_create (env q) (world q) d He Hd) as [Hsession _].
  pose proof (sim_connect_absent (world q) (client_config (env q) true) Hauth) as Hc.
  rewrite Hsession in Hc. specialize (Hc Hout).
  unfold createDatabase. rewrite (connect_refused true _ q _ _ Hc). reflexivity.
Qed.

Lemma dropped_database_cannot_be_created_again_witness :
  (createDatabase
     (dropDatabase (Demo.start (Demo.as_admin (Demo.flags "1")) Demo.server)).2).1
  = Thrown (Sim.no_database "app").
Proof.
  pose proof (dropped_database_cannot_be_created_again
                (Demo.start (Demo.as_admin (Demo.flags "1")) Demo.server) "app"
                eq_refl ltac:(discriminate) eq_refl eq_refl eq_refl eq_refl
                ltac:(vm_compute; discriminate)
                ltac:(apply (bool_decide_unpack _); vm_compute; exact I))
    as (_ & _ & Hcreate).
  rewrite Hcreate. reflexivity.
Defined.

(** * Beyond the claims: the loop of the seed script *)

Section Loop.
Context {W : Type} `{Collaborators W}.
Variable ident : string -> list Value -> Value.
Hypothesis Hanswers : answers_with_ids ident.

Lemma step_bind {A B} (m : Script W A) (k : A -> Script W B) p a p' :
  m p = (Returned a, p') -> (m ≫= k) p = k a p'.
Proof. intros Hm. unfold mbind, script_bind. rewrite Hm. reflexivity. Qed.

Lemma run_execute sql params (p : Proc W) answer w' :
  pg_execute sql params (world p) = (Returned answer, w') ->
  execute sql params p = (Returned answer, later p [Execute sql params] w').
Proof.
  intros Hx. unfold execute, emit, call, later, mbind, script_bind.
  cbn [env dirname trace world]. rewrite Hx. reflexivity.
Qed.

(** An insert of a user or of a role, and the reading of its [id]. *)
Lemma insert_answers_id (sql : string) (params : list Value)
    (k : Value -> Script W unit) (p : Proc W) :
  sql <> insert_user_role_sql ->
  exists w',
    (userResult ← execute sql params; userId ← first_row_id userResult; k userId) p
    = k (ident sql params) (later p [Execute sql params] w').
Proof.
  intros Hsql.
  destruct (Hanswers sql params (world p)) as (answer & w' & Hx & Hid).
  destruct (Hid Hsql) as (r & more & row & rest & -> & Hrows & <-).
  exists w'. rewrite (step_bind _ _ p _ _ (run_execute _ _ p _ _ Hx)).
  unfold first_row_id, mbind, script_bind, mret, script_ret.
  cbn [lookup list_lookup]. rewrite Hrows. reflexivity.
Qed.

(** The inner loop: one association per accumulated role, in order. *)
Lemma links_run (uid : Value) (xs : list Value) :
  forall q : Proc W,
    exists q',
      for_of xs (fun roleId => execute insert_user_role_sql [uid; roleId];; mret tt) q
      = (Returned tt, q')
      /\ trace q'
         = trace q ++ ((fun r => Execute insert_user_role_sql [uid; r]) <$> xs).
Proof.
  induction xs as [| x xs IH]; intros q.
  - exists q. split; [reflexivity |]. cbn. rewrite app_nil_r. reflexivity.
  - destruct (Hanswers insert_user_role_sql [uid; x] (world q)) as (answer & w' & Hx & _).
    destruct (IH (later q [Execute insert_user_role_sql [uid; x]] w')) as (q' & Hrun & Ht).
    exists q'. split.
    + cbn [for_of].
      rewrite (step_bind _ _ q tt (later q [Execute insert_user_role_sql [uid; x]] w'));
        [exact Hrun |].
      rewrite (step_bind _ _ q _ _ (run_execute _ _ q _ _ Hx)). reflexivity.
    + rewrite Ht. cbn [later trace fmap list_fmap]. rewrite <- app_assoc. reflexivity.
Qed.

(** The outer loop returns, having made exactly the inserts of
    [loop_events]. *)
Lemma loop_runs (hash : string) (roster : list SeedUser) :
  forall (acc : list Value) (p : Proc W),
    exists p',
      seed_each hash acc roster p = (Returned tt, p')
      /\ trace p' = trace p ++ loop_events ident hash acc roster.
Proof.
  induction roster as [| u rest IH]; intros acc p.
  - exists p. split; [reflexivity |]. cbn. rewrite app_nil_r. reflexivity.
  - cbn [seed_each].
    destruct (insert_answers_id insert_user_sql
                [VString (username u); VString (email u); VString hash]
                (fun userId =>
                   roleResult ← execute insert_role_sql [VString (username u)];
                   newRoleId ← first_row_id roleResult;
                   for_of (acc ++ [newRoleId])
                     (fun roleId => execute insert_user_role_sql [userId; roleId];; mret tt);;
                   seed_each hash (acc ++ [newRoleId]) rest)
                p ltac:(discriminate)) as (w1 & ->).
    fold (user_id_by ident hash u). fold (user_insert u hash).
    set (q1 := later p [user_insert u hash] w1).
    destruct (insert_answers_id insert_role_sql [VString (username u)]
                (fun newRoleId =>
                   for_of (acc ++ [newRoleId])
                     (fun roleId =>
                        execute insert_user_role_sql [user_id_by ident hash u; roleId];;
                        mret tt);;
                   seed_each hash (acc ++ [newRoleId]) rest)
                q1 ltac:(discriminate)) as (w2 & ->).
    fold (role_id_by ident u).
    set (q2 := later q1 [Execute insert_role_sql [VString (username u)]] w2).
    destruct (links_run (user_id_by ident hash u) (acc ++ [role_id_by ident u]) q2)
      as (q3 & Hlinks & Ht3).
    destruct (IH (acc ++ [role_id_by ident u]) q3) as (p' & Hrest & Ht).
    exists p'. split.
    + rewrite (step_bind _ _ q2 tt q3 Hlinks). exact Hrest.
    + rewrite Ht, Ht3. subst q2 q1. cbn [later trace loop_events].
      rewrite <- !app_assoc. reflexivity.
Qed.

End Loop.

Lemma links_app (a b : list Event) : links (a ++ b) = links a ++ links b.
Proof. apply omap_app. Qed.

Lemma links_of_associations (uid : Value) (xs : list Value) :
  links ((fun r => Execute insert_user_role_sql [uid; r]) <$> xs)
  = (fun r => (uid, r)) <$> xs.
Proof.
  induction xs as [| x xs IH]; [reflexivity |].
  cbn [fmap list_fmap]. unfold links. cbn [omap list_omap].
  destruct (decide (insert_user_role_sql = insert_user_role_sql)) as [_ | Hne];
    [| contradiction].
  f_equal. exact IH.
Qed.

(** The associations among the inserts of the loop, the roles of the
    users [pre] having been accumulated before. *)
Lemma links_of_loop (ident : string -> list Value -> Value) (hash : string)
    (roster : list SeedUser) :
  forall pre : list SeedUser,
    links (loop_events ident hash (role_id_by ident <$> pre) roster)
    = mjoin (imap (fun k u =>
                     (fun v => (user_id_by ident hash u, role_id_by ident v))
                       <$> (pre ++ take (S k) roster)) roster).
Proof.
  induction roster as [| u rest IH]; intros pre; [reflexivity |].
  cbn [loop_events]. rewrite imap_cons.
  change (mjoin (?x :: ?l)) with (x ++ mjoin l).
  rewrite !links_app, links_of_associations.
  change (links [user_insert u hash; Execute insert_role_sql [VString (username u)]])
    with (@nil (Value * Value)).
  cbn [app take].
  rewrite <- (fmap_snoc (role_id_by ident) pre u).
  rewrite IH, <- list_fmap_compose. f_equal. f_equal.
  apply imap_ext. intros k v _. cbn [compose take].
  rewrite <- app_assoc. reflexivity.
Qed.


